(** * XAP host client (lib/python/qmk/cli/xap/xap.py)

    A shallow embedding of [XAPDevice]: the request/response transaction
    engine, the reader loop that signals waiting callers, the broadcast
    listener, the chunked device-info fetch and the memoised [version] and
    [info] queries, followed by the properties established about them.

    Bytes are integers in [0, 256) held in a [list Z]; Python [int] is [Z].
    The device object's mutable attributes, the transport and the host
    environment are the fields of one record that every method threads. *)

From stdpp Require Import gmap strings list pretty.
From Stdlib Require Import ZArith Lia.

Open Scope Z_scope.

Set Warnings "-register-all".

(** ** Python built-ins used by the client *)

Module Py.

(** Exceptions that the modelled statements can raise.  [ExternalError]
    stands for whatever [gzip.decompress] or [json.loads] raises. *)
Inductive exn : Set :=
| OverflowError
| IndexError
| TypeError
| KeyError
| AttributeError
| ExternalError (name : string).

Inductive byteorder : Set := little | big.

(** Base-256 digits of [v], least significant first, [n] of them. *)
Fixpoint le_digits (n : nat) (v : Z) : list Z :=
  match n with
  | O => []
  | S k => v mod 256 :: le_digits k (v / 256)
  end.

(** [int.to_bytes(length, byteorder)]: unsigned; [None] is OverflowError. *)
Definition to_bytes (v : Z) (length : nat) (order : byteorder) : option (list Z) :=
  if (0 <=? v) && (v <? 256 ^ Z.of_nat length) then
    Some (match order with
          | little => le_digits length v
          | big => rev (le_digits length v)
          end)
  else None.

(** [int.from_bytes(b, "little")]. *)
Fixpoint from_bytes_little (b : list Z) : Z :=
  match b with
  | [] => 0
  | x :: rest => x + 256 * from_bytes_little rest
  end.

(** [random.randrange(start, stop)]: some integer of [range(start, stop)],
    selected here by the entropy drawn from the generator. *)
Definition randrange (start stop entropy : Z) : Z :=
  start + entropy mod (stop - start).

(** [len] *)
Definition len {A} (l : list A) : Z := Z.of_nat (length l).

(** [b"\x00" * n]: empty when [n] is not positive. *)
Definition zeros (n : Z) : list Z := repeat 0 (Z.to_nat n).

(** [seq[lo:hi]] for non-negative bounds: clamped to the sequence. *)
Definition slice {A} (l : list A) (lo hi : Z) : list A :=
  take (Z.to_nat (hi - lo)) (drop (Z.to_nat lo) l).

(** [seq[i]] for a non-negative index; [None] is IndexError. *)
Definition index {A} (l : list A) (i : nat) : option A := l !! i.

(** [str.lower] on ASCII letters. *)
Definition lower_ascii (c : Ascii.ascii) : Ascii.ascii :=
  let n := Ascii.nat_of_ascii c in
  if (Nat.leb 65 n && Nat.leb n 90)%bool then Ascii.ascii_of_nat (n + 32) else c.

Fixpoint lower (s : string) : string :=
  match s with
  | EmptyString => EmptyString
  | String c rest => String (lower_ascii c) (lower rest)
  end.

(** [needle in haystack] on strings. *)
Fixpoint contains (needle haystack : string) : bool :=
  if String.prefix needle haystack then true
  else match haystack with
       | EmptyString => false
       | String _ rest => contains needle rest
       end.

(** Values a device-info record is made of: what [json.loads] yields,
    plus [bytes] and [None] that [info] stores itself. *)
Inductive pyval : Type :=
| PNone
| PBool (b : bool)
| PInt (n : Z)
| PFloat (mantissa exponent : Z)
| PStr (s : string)
| PBytes (b : list Z)
| PList (l : list pyval)
| PDict (d : list (string * pyval)).

(** Insertion-ordered dict update: replace in place, else append. *)
Fixpoint assoc_set (k : string) (v : pyval) (d : list (string * pyval))
  : list (string * pyval) :=
  match d with
  | [] => [(k, v)]
  | (k', v') :: rest =>
      if String.eqb k k' then (k, v) :: rest else (k', v') :: assoc_set k v rest
  end.

Fixpoint assoc_get (k : string) (d : list (string * pyval)) : option pyval :=
  match d with
  | [] => None
  | (k', v') :: rest => if String.eqb k k' then Some v' else assoc_get k rest
  end.

End Py.

Import Py.

(** ** Version rendering *)

(** [f'{val>>24}.{val>>16 & 0xFF}.{val & 0xFFFF}']; [>>] binds tighter
    than [&]. *)
Definition _u32toBCD (val : Z) : string :=
  pretty (Z.shiftr val 24) +:+ "." +:+
  pretty (Z.land (Z.shiftr val 16) 0xFF) +:+ "." +:+
  pretty (Z.land val 0xFFFF).

(** [XAPFlags.SUCCESS] *)
Definition SUCCESS : Z := 0x01.

(** ** Device state *)

(** A [threading.Event] together with the [_ret] attribute that the
    reader attaches to it ([None] while the attribute does not exist). *)
Record Event : Type := mkEvent {
  is_set : bool;
  _ret : option (list Z)
}.

(** The [XAPDevice] object and what surrounds it.  Events are objects
    shared between the correlation table and the waiting caller, so the
    table holds references into [events].  The key [str(token)] is
    represented by the token bytes themselves ([str] is injective on
    [bytes]).  [entropy] feeds [random.randrange]; [incoming] holds, for
    each successive wait, the reports that [dev.read] hands to the reader
    thread from the registration of the slot until the waiting caller runs
    again (all reports ever, when it never does). *)
Record State : Type := mkState {
  responses : gmap (list Z) nat;
  events : list Event;
  written : list (list Z);
  version_cache : option pyval;
  info_cache : option pyval;
  platform : string;
  entropy : list Z;
  incoming : list (list (list Z))
}.

Definition with_responses (f : gmap (list Z) nat -> gmap (list Z) nat) (s : State) : State :=
  mkState (f (responses s)) (events s) (written s) (version_cache s)
          (info_cache s) (platform s) (entropy s) (incoming s).

Definition with_events (f : list Event -> list Event) (s : State) : State :=
  mkState (responses s) (f (events s)) (written s) (version_cache s)
          (info_cache s) (platform s) (entropy s) (incoming s).

Definition with_written (f : list (list Z) -> list (list Z)) (s : State) : State :=
  mkState (responses s) (events s) (f (written s)) (version_cache s)
          (info_cache s) (platform s) (entropy s) (incoming s).

Definition with_version_cache (c : option pyval) (s : State) : State :=
  mkState (responses s) (events s) (written s) c
          (info_cache s) (platform s) (entropy s) (incoming s).

Definition with_info_cache (c : option pyval) (s : State) : State :=
  mkState (responses s) (events s) (written s) (version_cache s)
          c (platform s) (entropy s) (incoming s).

Definition with_entropy (e : list Z) (s : State) : State :=
  mkState (responses s) (events s) (written s) (version_cache s)
          (info_cache s) (platform s) e (incoming s).

Definition with_incoming (i : list (list (list Z))) (s : State) : State :=
  mkState (responses s) (events s) (written s) (version_cache s)
          (info_cache s) (platform s) (entropy s) i.

(** ** Computations on the device *)

(** How a call ends: it returns, raises, waits for ever on an event that
    is never set, or is a loop cut off by its fuel. *)
Inductive result (A : Type) : Type :=
| Return (a : A)
| Raise (e : exn)
| Blocked
| OutOfFuel.

Arguments Return {A} a.
Arguments Raise {A} e.
Arguments Blocked {A}.
Arguments OutOfFuel {A}.

Definition M (A : Type) : Type := State -> result A * State.

Definition ret {A} (a : A) : M A := fun s => (Return a, s).

Definition raise {A} (e : exn) : M A := fun s => (Raise e, s).

Definition bind {A B} (m : M A) (k : A -> M B) : M B :=
  fun s =>
    match m s with
    | (Return a, s') => k a s'
    | (Raise e, s') => (Raise e, s')
    | (Blocked, s') => (Blocked, s')
    | (OutOfFuel, s') => (OutOfFuel, s')
    end.

Declare Scope xap_scope.
Delimit Scope xap_scope with xap.

Notation "x <- m ;; k" := (bind m (fun x => k))
  (at level 100, m at next level, right associativity) : xap_scope.
Notation "m ;;; k" := (bind m (fun _ => k))
  (at level 100, right associativity) : xap_scope.

Open Scope xap_scope.

Definition get {A} (f : State -> A) : M A := fun s => (Return (f s), s).

Definition modify (f : State -> State) : M unit := fun s => (Return tt, f s).

(** A built-in that raises [e] when it has no value. *)
Definition or_raise {A} (e : exn) (o : option A) : M A :=
  match o with
  | Some a => ret a
  | None => raise e
  end.

(** Next draw of the random generator (0 once the supply is used up). *)
Definition draw : M Z :=
  fun s =>
    match entropy s with
    | [] => (Return 0, s)
    | r :: rest => (Return r, with_entropy rest s)
    end.

(** Reports arriving during the next wait (none once the supply is used up). *)
Definition next_incoming : M (list (list Z)) :=
  fun s =>
    match incoming s with
    | [] => (Return [], s)
    | i :: rest => (Return i, with_incoming rest s)
    end.

(** [threading.Event()]: a fresh object, returned by reference. *)
Definition new_event : M nat :=
  fun s => (Return (length (events s)),
            with_events (fun es => es ++ [mkEvent false None]) s).

(** ** Reader loop *)

(** One iteration of [_read_loop] in which [dev.read] returned
    [array_alpha] (empty when the poll timed out). *)
Definition _read_loop (array_alpha : list Z) (s : State) : State :=
  match array_alpha with
  | [] => s
  | _ =>
      let token := take 2 array_alpha in
      match responses s !! token with
      | Some event =>
          with_events (fun es => <[event := mkEvent true (Some array_alpha)]> es) s
      | None => s
      end
  end.

Definition event_is_set (event : nat) (s : State) : bool :=
  match events s !! event with
  | Some e => is_set e
  | None => false
  end.

(** The reader thread while a caller is suspended in [event.wait]: it
    handles, in order, the reports read from the registration of the
    caller's slot until the caller runs again. *)
Definition reader_runs (inbox : list (list Z)) (s : State) : State :=
  foldl (fun s' array_alpha => _read_loop array_alpha s') s inbox.

(** [event.wait]: the caller runs again some time after the event was
    set or, for a timed wait, after the deadline; the reader may have
    handled any number of reports by then, and [inbox] is all of them.  The
    result is the flag of the event at that moment: a timed wait that
    finds it clear has reached its deadline, a wait without deadline that
    finds it clear never ends. *)
Definition wait (event : nat) (inbox : list (list Z)) : M bool :=
  fun s =>
    let s' := reader_runs inbox s in
    (Return (event_is_set event s'), s').

(** A wait that never ends. *)
Definition block {A} : M A := fun s => (Blocked, s).

(** ** Transactions *)

(** The single optional argument of [transaction(sub, route, *args)]. *)
Inductive arg : Type :=
| ABytes (b : list Z)
| AInt (n : Z).

(** The request buffer built by [transaction] from the token bytes, up to
    the platform prefix. *)
Definition request_buffer (token : list Z) (sub route : Z) (args : list arg)
  : M (list Z) :=
  a <-
    match args with
    | [ABytes b] => ret (2 + len b, b)
    | [AInt n] =>
        d <- or_raise OverflowError (to_bytes n 2 little);;
        ret (2 + 2, d)
    | _ => ret (2, [])
    end;;
  let '(args_len, args_data) := a in
  let padding_len := 64 - 3 - args_len in
  let padding := zeros padding_len in
  let padding :=
    match args_data with
    | [] => padding
    | _ => args_data ++ padding
    end in
  b_len <- or_raise OverflowError (to_bytes args_len 1 little);;
  b_sub <- or_raise OverflowError (to_bytes sub 1 little);;
  b_route <- or_raise OverflowError (to_bytes route 1 little);;
  let buffer := token ++ b_len ++ b_sub ++ b_route ++ padding in
  plat <- get platform;;
  ret (if contains "windows" (lower plat) then [0] ++ buffer else buffer).

(** The token drawn by [transaction]. *)
Definition gen_token (r : Z) : Z := randrange 0x0100 0xFFFE r.

(** [XAPDevice.transaction]; [None] is Python's [None].  The result of
    [event.wait(timeout=1)] is not used: the caller pops its slot and
    looks for the [_ret] attribute, which holds the report that the reader
    stored last. *)
Definition transaction (sub route : Z) (args : list arg) : M (option (list Z)) :=
  r <- draw;;
  token <- or_raise OverflowError (to_bytes (gen_token r) 2 big);;
  buffer <- request_buffer token sub route args;;
  event <- new_event;;
  modify (with_responses (fun t => <[token := event]> t));;;
  modify (with_written (fun w => w ++ [buffer]));;;
  inbox <- next_incoming;;
  wait event inbox;;;
  modify (with_responses (fun t => delete token t));;;
  e <- get (fun s => events s !! event);;
  match e ≫= _ret with
  | None => ret None
  | Some array_alpha =>
      flags <- or_raise IndexError (index array_alpha 2);;
      if negb (flags =? SUCCESS) then ret None
      else
        payload_len <- or_raise IndexError (index array_alpha 3);;
        ret (Some (slice array_alpha 4 (4 + payload_len)))
  end.

(** [XAPDevice.listen]: the slot is never popped, so [_ret] is the
    report that the reader stored last before the caller ran again. *)
Definition listen : M (list Z) :=
  let token := [0xFF; 0xFF] in
  event <- new_event;;
  modify (with_responses (fun t => <[token := event]> t));;;
  inbox <- next_incoming;;
  signalled <- wait event inbox;;
  if signalled : bool then
    e <- get (fun s => events s !! event);;
    or_raise AttributeError (e ≫= _ret)
  else block.

(** [XAPDevice.unlock] *)
Definition unlock : M unit :=
  transaction 0x00 0x04 [];;;
  ret tt.

(** ** Device information *)

(** [x or bytes(0)] for [x] the result of a transaction. *)
Definition or_empty (x : option (list Z)) : list Z :=
  match x with
  | None => []
  | Some [] => []
  | Some b => b
  end.

(** [d[k] = v] and [d[k]]; only a dict takes a string key. *)
Definition setitem (d : pyval) (k : string) (v : pyval) : M pyval :=
  match d with
  | PDict l => ret (PDict (assoc_set k v l))
  | _ => raise TypeError
  end.

Definition getitem (d : pyval) (k : string) : M pyval :=
  match d with
  | PDict l => or_raise KeyError (assoc_get k l)
  | _ => raise TypeError
  end.

(** The payload of a transaction as a Python value. *)
Definition of_payload (x : option (list Z)) : pyval :=
  match x with
  | None => PNone
  | Some b => PBytes b
  end.

(** The [while offset < datalen] loop of [_query_device_info]; appending
    [None] to a list is a TypeError. *)
Fixpoint fetch_chunks (fuel : nat) (datalen : Z) (data : list Z) (offset : Z)
  : M (list Z) :=
  match fuel with
  | O => fun s => (OutOfFuel, s)
  | S fuel' =>
      if offset <? datalen then
        chunk <- transaction 0x01 0x06 [AInt offset];;
        match chunk with
        | None => raise TypeError
        | Some c => fetch_chunks fuel' datalen (data ++ c) (offset + len c)
        end
      else ret data
  end.

(** [@functools.cache] on a method without arguments: one cell per device,
    filled when the body returns. *)
Definition cached (cell : State -> option pyval)
    (store : option pyval -> State -> State) (body : M pyval) : M pyval :=
  c <- get cell;;
  match c with
  | Some v => ret v
  | None =>
      v <- body;;
      modify (store (Some v));;;
      ret v
  end.

(** [XAPDevice.version] *)
Definition version : M pyval :=
  cached version_cache with_version_cache
    (r <- transaction 0x00 0x00 [];;
     let ver := from_bytes_little (or_empty r) in
     ret (PDict [("xap"%string, PStr (_u32toBCD ver))])).

Section DeviceInfo.

(** [json.loads(gzip.decompress(bytearray(data)))]: library code, taken
    as given; the left injection is the exception it raises. *)
Variable gunzip_loads : list Z -> exn + pyval.

(** [XAPDevice._query_device_info] *)
Definition _query_device_info (fuel : nat) : M pyval :=
  r <- transaction 0x01 0x05 [];;
  let datalen := from_bytes_little (or_empty r) in
  if datalen =? 0 then ret (PDict [])
  else
    data <- fetch_chunks fuel datalen [] 0;;
    match gunzip_loads (slice data 0 datalen) with
    | inl e => raise e
    | inr v => ret v
    end.

(** [XAPDevice.info]; the right-hand side of each assignment runs before
    the store into [data]. *)
Definition info (fuel : nat) : M pyval :=
  cached info_cache with_info_cache
    (data <- _query_device_info fuel;;
     id <- transaction 0x01 0x08 [];;
     data <- setitem data "_id" (of_payload id);;
     v <- version;;
     xap <- getitem v "xap";;
     setitem data "xap" xap).

End DeviceInfo.

(** ** Device discovery *)

(** An entry of [hid.enumerate()], with the fields the client reads. *)
Record hid_entry : Type := mkEntry {
  path : list Z;
  vendor_id : Z;
  product_id : Z;
  usage_page : Z;
  usage : Z;
  manufacturer_string : string;
  product_string : string
}.

Definition hex_digit (d : Z) : Ascii.ascii :=
  if d <? 10 then Ascii.ascii_of_nat (Z.to_nat (48 + d))
  else Ascii.ascii_of_nat (Z.to_nat (87 + d)).

(** Lower-case hexadecimal digits of a non-negative [n], prepended to
    [acc]; [fuel] bounds the number of digits. *)
Fixpoint hex_go (fuel : nat) (n : Z) (acc : string) : string :=
  match fuel with
  | O => acc
  | S k =>
      let acc' := String (hex_digit (n mod 16)) acc in
      if n / 16 =? 0 then acc' else hex_go k (n / 16) acc'
  end.

Definition hex (n : Z) : string := hex_go (S (Z.to_nat (Z.log2 n))) n "".

(** Zeros in front of [digits] up to [width] characters. *)
Fixpoint zero_fill_go (fuel width : nat) (digits : string) : string :=
  match fuel with
  | O => digits
  | S k => if Nat.leb width (String.length digits) then digits
           else zero_fill_go k width (String (Ascii.ascii_of_nat 48) digits)
  end.

Definition zero_fill (width : nat) (digits : string) : string :=
  zero_fill_go width width digits.

(** ["%04x" % n]: the sign counts towards the width. *)
Definition format_04x (n : Z) : string :=
  if n <? 0 then String (Ascii.ascii_of_nat 45) (zero_fill 3 (hex (- n))) else zero_fill 4 (hex n).

(** [_is_xap_usage] of [XAPClient.list]. *)
Definition _is_xap_usage (x : hid_entry) : bool :=
  (usage_page x =? 0xFF51) && (usage x =? 0x0058).

(** ["%04x:%04x" % (x['vendor_id'], x['product_id'])] *)
Definition device_name (x : hid_entry) : string :=
  format_04x (vendor_id x) +:+ ":" +:+ format_04x (product_id x).

(** [_is_filtered_device] of [XAPClient.list], for the search string of
    the enclosing call. *)
Definition _is_filtered_device (search : string) (x : hid_entry) : bool :=
  String.prefix (lower search) (lower (device_name x)).

(** [XAPClient.list(search)] over the entries that [hid.enumerate()]
    yields; [None] and the empty string skip the second filter. *)
Definition XAPClient_list (search : option string) (enumerated : list hid_entry)
  : list hid_entry :=
  let devices := List.filter _is_xap_usage enumerated in
  match search with
  | Some (String _ _ as q) => List.filter (_is_filtered_device q) devices
  | _ => devices
  end.

(** * Specification vocabulary

    Notions in which the properties below are phrased. *)

(** The reference of every registered slot denotes an allocated event. *)
Definition wf (s : State) : Prop :=
  forall k e, responses s !! k = Some e -> (e < length (events s))%nat.

(** The state differs from [s] in its event objects at most. *)
Definition same_device (s s' : State) : Prop :=
  s' = with_events (fun _ => events s') s.

(** The token bytes that the next [transaction] draws in [s]. *)
Definition next_token (s : State) : list Z :=
  let t := gen_token (hd 0 (entropy s)) in [t / 256; t mod 256].

(** The reports that the reader handles during the next wait in [s]. *)
Definition next_inbox (s : State) : list (list Z) := hd [] (incoming s).

(** The state in which [random.randrange] has been called. *)
Definition after_draw (s : State) : State := with_entropy (tl (entropy s)) s.

(** The state in which the caller of the next [transaction] waits, its
    request [buffer] written and its slot registered. *)
Definition waiting_state (buffer : list Z) (s : State) : State :=
  with_incoming (tl (incoming s))
    (with_written (fun w => w ++ [buffer])
       (with_responses (fun t => <[next_token s := length (events s)]> t)
          (with_events (fun es => es ++ [mkEvent false None]) (after_draw s)))).

(** The state in which that [transaction] ends. *)
Definition transaction_end (buffer : list Z) (s : State) : State :=
  with_responses (fun t => delete (next_token s) t)
    (reader_runs (next_inbox s) (waiting_state buffer s)).

(** The bytes an argument contributes to the request. *)
Definition encoded (a : arg) : option (list Z) :=
  match a with
  | ABytes b => Some b
  | AInt n => if (0 <=? n) && (n <? 65536) then Some [n mod 256; n / 256] else None
  end.

(** The report-ID byte that the platform asks for. *)
Definition report_id (s : State) : list Z :=
  if contains "windows" (lower (platform s)) then [0] else [].

(** Token, argument length, subsystem, route, argument bytes, padding. *)
Definition request_frame (token : list Z) (sub route : Z) (d : list Z) : list Z :=
  token ++ [2 + len d; sub; route] ++ d ++ zeros (59 - len d).

(** The request of [transaction(sub, route, *args)] in [s] is encoded
    as [buffer]. *)
Definition encodes (sub route : Z) (args : list arg) (s : State) (buffer : list Z) : Prop :=
  request_buffer (next_token s) sub route args (after_draw s)
    = (Return buffer, after_draw s).

(** A device just opened on a host, with the random draws and the
    reports to come. *)
Definition opened (plat : string) (draws : list Z) (reports : list (list (list Z)))
  : State :=
  mkState ∅ [] [] None None plat draws reports.

(** A 64-byte response report. *)
Definition report (token : list Z) (flags : Z) (payload : list Z) : list Z :=
  token ++ [flags; len payload] ++ payload ++ zeros (60 - len payload).

(** Sample sessions: a device that never answers, one that rejects the
    request, one whose response declares 200 payload bytes, and one that
    broadcasts. *)
Definition silent_device : State := opened "Linux" [0] [[]].

Definition rejecting_device : State := opened "Linux" [0] [[report [1; 0] 0 []]].

Definition overlong_report : list Z := [1; 0; 1; 200] ++ repeat 85 60%nat.

Definition overlong_device : State := opened "Linux" [0] [[overlong_report]].

Definition broadcasting_device : State :=
  opened "Linux" [] [[report [1; 0] 1 [9]; report [255; 255] 1 [7]]].

Definition windows_device : State :=
  opened "Windows-10-10.0.19045-SP0" [0xFEFD] [[report [255; 253] 1 [3; 0; 2; 1]]].

(** An argument one byte too long for a report. *)
Definition sixty_bytes : list Z := repeat 170 60%nat.

(** [fetched datalen k c c']: [k] iterations of the chunk loop, each with
    a chunk transaction that returned a payload, lead from the loop state
    [c] (data, offset, device) to [c']. *)
Inductive fetched (datalen : Z) : nat -> list Z * Z * State -> list Z * Z * State -> Prop :=
| fetched_O c : fetched datalen O c c
| fetched_S k data offset s chunk s1 c' :
    offset < datalen ->
    transaction 0x01 0x06 [AInt offset] s = (Return (Some chunk), s1) ->
    fetched datalen k (data ++ chunk, offset + len chunk, s1) c' ->
    fetched datalen (S k) (data, offset, s) c'.

(** The computation leaves the observation [f] of the state as it was. *)
Definition preserves {A B} (f : State -> B) (m : M A) : Prop :=
  forall s, f (m s).2 = f s.

(** A device asked for its info blob: 8 bytes are announced, 4 arrive,
    then it falls silent. *)
Definition stalling_device : State :=
  opened "Linux" [0; 0; 0]
    [[report [1; 0] 1 [8]]; [report [1; 0] 1 [31; 139; 8; 0]]; []].

Definition stalling_after_length : State :=
  (transaction 0x01 0x05 [] stalling_device).2.

Definition stalling_after_chunk : State :=
  (transaction 0x01 0x06 [AInt 0] stalling_after_length).2.

(** A decoder that accepts nothing. *)
Definition no_decoder (data : list Z) : exn + pyval := inl (ExternalError "gzip").

(** The reader signals the slot of [token] for report [f]. *)
Definition answers (token f : list Z) : bool :=
  bool_decide (f <> [] /\ take 2 f = token).

(** Last report of [inbox] that signals the slot of [token]: the one
    that [_ret] holds when the reader has handled all of [inbox]. *)
Fixpoint last_response (token : list Z) (inbox : list (list Z)) : option (list Z) :=
  match inbox with
  | [] => None
  | f :: rest =>
      match last_response token rest with
      | Some g => Some g
      | None => if answers token f then Some f else None
      end
  end.

(** When the caller of the next transaction in [s] runs again, no
    response to it has been handled (it has timed out), or the response
    handled last has a flags byte other than SUCCESS. *)
Definition times_out_or_rejected (s : State) : Prop :=
  match last_response (next_token s) (next_inbox s) with
  | None => True
  | Some f => exists flags, f !! 2%nat = Some flags /\ flags <> SUCCESS
  end.

(** What a transaction yields for the response, if any, that its event
    holds when the caller runs again. *)
Definition outcome (response : option (list Z)) : result (option (list Z)) :=
  match response with
  | None => Return None
  | Some f =>
      match f !! 2%nat with
      | None => Raise IndexError
      | Some flags =>
          if negb (flags =? SUCCESS) then Return None
          else match f !! 3%nat with
               | None => Raise IndexError
               | Some n => Return (Some (slice f 4 (4 + n)))
               end
      end
  end.

(** Bits [hi]..[lo] of [v], as the specification names the fields. *)
Definition bits (hi lo v : Z) : Z := (v / 2 ^ lo) mod 2 ^ (hi - lo + 1).

(** Three numbers in decimal, joined by dots. *)
Definition dotted (a b c : Z) : string :=
  pretty a +:+ "." +:+ pretty b +:+ "." +:+ pretty c.

(** Further sample sessions: a device that answers with a report cut
    off after the flags byte, and the session left by a [listen] call. *)
Definition truncating_device : State := opened "Linux" [0] [[[1; 0; 1]]].

Definition after_listen : State := (listen broadcasting_device).2.

(** The request can be put into a frame: subsystem and route are bytes,
    a single integer argument fits 16 bits, and a single byte-sequence
    argument leaves the argument length within a byte. *)
Definition encodable (sub route : Z) (args : list arg) : Prop :=
  0 <= sub < 256 /\ 0 <= route < 256 /\
  match args with
  | [AInt n] => 0 <= n < 65536
  | [ABytes b] => len b <= 253
  | _ => True
  end.

(** A device that serves a 6-byte info blob in two chunks of 4 bytes. *)
Definition serving_device : State :=
  opened "Linux" [0; 0; 0]
    [[report [1; 0] 1 [6]];
     [report [1; 0] 1 [1; 2; 3; 4]];
     [report [1; 0] 1 [5; 6; 7; 8]]].

Definition serving_after_length : State :=
  (transaction 0x01 0x05 [] serving_device).2.

Definition serving_after_first : State :=
  (transaction 0x01 0x06 [AInt 0] serving_after_length).2.

Definition serving_after_second : State :=
  (transaction 0x01 0x06 [AInt 4] serving_after_first).2.

(** Decoders for the samples: one that yields an object recording the
    size of what it was given, one that yields an array. *)
Definition size_decoder (data : list Z) : exn + pyval :=
  inr (PDict [("size"%string, PInt (len data))]).

Definition array_decoder (data : list Z) : exn + pyval := inr (PList []).

(** Two enumerated interfaces of one keyboard: its XAP interface and its
    keyboard interface. *)
Definition xap_interface : hid_entry :=
  mkEntry [1] 0xFEED 0x0001 0xFF51 0x0058 "QMK" "Board".

Definition keyboard_interface : hid_entry :=
  mkEntry [2] 0xFEED 0x0001 0x0001 0x0006 "QMK" "Board".

(** Between calls the table holds at most the slot of a broadcast
    listener, and every slot refers to an allocated event. *)
Definition session_ok (s : State) : Prop :=
  wf s /\ forall k, is_Some (responses s !! k) -> k = [0xFF; 0xFF].

(** The computation keeps the state property [P], however it ends. *)
Definition keeps {A} (P : State -> Prop) (m : M A) : Prop :=
  forall s, P s -> P (m s).2.

(** Sessions in which two reports reach one slot while its caller is
    suspended: a rejection followed by a success, and two broadcasts. *)
Definition answering_twice_device : State :=
  opened "Linux" [0] [[report [1; 0] 0 []; report [1; 0] 1 [6]]].

Definition broadcasting_twice_device : State :=
  opened "Linux" [] [[report [255; 255] 1 [7]; report [255; 255] 1 [8]]].

(** * Properties *)

(** ** Tokens *)

Lemma gen_token_bounds (r : Z) : 0x0100 <= gen_token r <= 0xFFFD.
Proof.
  unfold gen_token, randrange.
  assert (Hm : 0 <= r mod (0xFFFE - 0x0100) < 0xFFFE - 0x0100)
    by (apply Z.mod_pos_bound; lia).
  lia.
Qed.

Lemma gen_token_to_bytes (r : Z) :
  to_bytes (gen_token r) 2 big = Some [gen_token r / 256; gen_token r mod 256].
Proof.
  pose proof (gen_token_bounds r) as Ht. unfold to_bytes.
  replace ((0 <=? gen_token r) && (gen_token r <? 256 ^ Z.of_nat 2)) with true.
  - cbn [le_digits rev app]. do 3 f_equal.
    rewrite Z.mod_small; [reflexivity |].
    split; [apply Z.div_pos; lia | apply Z.div_lt_upper_bound; lia].
  - symmetry. apply andb_true_iff. split; [apply Z.leb_le | apply Z.ltb_lt]; lia.
Qed.

(** C10: every token drawn by [transaction] lies in 0x0100..0xFFFD, so its
    high byte is never zero and neither 0xFFFE nor 0xFFFF (nor 0x0000)
    is ever generated; both ends of the range are reached. *)
Theorem gen_token_range :
  (forall r : Z,
      0x0100 <= gen_token r <= 0xFFFD /\
      gen_token r / 256 <> 0 /\
      gen_token r <> 0xFFFE /\ gen_token r <> 0xFFFF /\ gen_token r <> 0x0000 /\
      to_bytes (gen_token r) 2 big
        = Some [gen_token r / 256; gen_token r mod 256]) /\
  gen_token 0 = 0x0100 /\ gen_token 0xFEFD = 0xFFFD.
Proof.
  split; [| split; reflexivity].
  intros r. pose proof (gen_token_bounds r) as Ht.
  repeat split; try lia; [| apply gen_token_to_bytes].
  intros Hq.
  pose proof (Z.div_le_mono 256 (gen_token r) 256 ltac:(lia) ltac:(lia)) as Hd.
  change (256 / 256) with 1 in Hd. lia.
Qed.

(** ** Version rendering *)

Lemma shiftr24_bits (v : Z) :
  0 <= v < 2 ^ 32 -> Z.shiftr v 24 = bits 31 24 v.
Proof.
  intros Hv. unfold bits. rewrite Z.shiftr_div_pow2 by lia.
  symmetry. apply Z.mod_small. split.
  - apply Z.div_pos; lia.
  - apply Z.div_lt_upper_bound; lia.
Qed.

Lemma shiftr16_land_bits (v : Z) :
  Z.land (Z.shiftr v 16) 0xFF = bits 23 16 v.
Proof.
  unfold bits. change 0xFF with (Z.ones 8).
  rewrite Z.land_ones by lia. rewrite Z.shiftr_div_pow2 by lia. reflexivity.
Qed.

Lemma land16_bits (v : Z) : Z.land v 0xFFFF = bits 15 0 v.
Proof.
  unfold bits. change 0xFFFF with (Z.ones 16).
  rewrite Z.land_ones by lia. change (2 ^ 0) with 1. rewrite Z.div_1_r.
  reflexivity.
Qed.

(** C6: for a 32-bit version integer the rendered string is the dotted
    decimal of bits 31-24, bits 23-16 and bits 15-0; 0x01020003 gives
    "1.2.3" and 0 gives "0.0.0". *)
Theorem u32toBCD_fields :
  (forall v : Z,
      0 <= v < 2 ^ 32 ->
      _u32toBCD v = dotted (bits 31 24 v) (bits 23 16 v) (bits 15 0 v)) /\
  _u32toBCD 0x01020003 = "1.2.3"%string /\
  _u32toBCD 0x00000000 = "0.0.0"%string.
Proof.
  split; [| split; reflexivity].
  intros v Hv. unfold _u32toBCD, dotted.
  rewrite shiftr24_bits by assumption.
  rewrite shiftr16_land_bits, land16_bits. reflexivity.
Qed.

Lemma u32toBCD_fields_witness :
  0 <= 0x01020003 < 2 ^ 32 /\
  _u32toBCD 0x01020003
    = dotted (bits 31 24 0x01020003) (bits 23 16 0x01020003) (bits 15 0 0x01020003).
Proof.
  split; [lia |]. apply (proj1 u32toBCD_fields 0x01020003). lia.
Defined.

(** ** The monad *)

Lemma bind_Return {A B} (m : M A) (k : A -> M B) s a s' :
  m s = (Return a, s') -> bind m k s = k a s'.
Proof. intros H. unfold bind. rewrite H. reflexivity. Qed.

Lemma bind_Raise {A B} (m : M A) (k : A -> M B) s e s' :
  m s = (Raise e, s') -> bind m k s = (Raise e, s').
Proof. intros H. unfold bind. rewrite H. reflexivity. Qed.

Lemma draw_eq s : draw s = (Return (hd 0 (entropy s)), after_draw s).
Proof. destruct s as [? ? ? ? ? ? [|r ent] ?]; reflexivity. Qed.

Lemma next_incoming_eq s :
  next_incoming s = (Return (next_inbox s), with_incoming (tl (incoming s)) s).
Proof. destruct s as [? ? ? ? ? ? ? [|i inc]]; reflexivity. Qed.

(** ** The reader loop touches event objects only *)

Lemma same_device_refl s : same_device s s.
Proof. destruct s; reflexivity. Qed.

Lemma same_device_trans s1 s2 s3 :
  same_device s1 s2 -> same_device s2 s3 -> same_device s1 s3.
Proof.
  unfold same_device. intros H12 H23. rewrite H23 at 1. rewrite H12.
  destruct s1; reflexivity.
Qed.

Lemma read_loop_same a s : same_device s (_read_loop a s).
Proof.
  unfold same_device, _read_loop.
  destruct a; [apply same_device_refl |].
  destruct (responses s !! _); [| apply same_device_refl].
  destruct s; reflexivity.
Qed.

Lemma read_loop_length a s :
  length (events (_read_loop a s)) = length (events s).
Proof.
  unfold _read_loop. destruct a; [reflexivity |].
  destruct (responses s !! _); [| reflexivity].
  cbn. apply length_insert.
Qed.

Lemma same_device_fields s s' :
  same_device s s' ->
  responses s' = responses s /\ written s' = written s /\
  version_cache s' = version_cache s /\ info_cache s' = info_cache s /\
  platform s' = platform s /\ entropy s' = entropy s /\
  incoming s' = incoming s.
Proof. unfold same_device. intros ->. repeat split. Qed.

Lemma read_loop_miss a s (i : nat) :
  a = [] \/ responses s !! take 2 a <> Some i ->
  events (_read_loop a s) !! i = events s !! i.
Proof.
  intros Hmiss. unfold _read_loop.
  destruct a as [|x a']; [reflexivity |].
  destruct Hmiss as [Hnil | Hne]; [discriminate |].
  destruct (responses s !! take 2 (x :: a')) as [e|] eqn:He; [| reflexivity].
  cbn. apply list_lookup_insert_ne. congruence.
Qed.

Lemma read_loop_hit a s (i : nat) :
  a <> [] -> responses s !! take 2 a = Some i -> (i < length (events s))%nat ->
  events (_read_loop a s) !! i = Some (mkEvent true (Some a)).
Proof.
  intros Hne Hi Hlt. unfold _read_loop.
  destruct a as [|x a']; [congruence |].
  rewrite Hi. cbn. apply list_lookup_insert_eq. exact Hlt.
Qed.

Lemma answers_true token f :
  answers token f = true -> f <> [] /\ take 2 f = token.
Proof. unfold answers. intros H. apply bool_decide_eq_true in H. exact H. Qed.

Lemma answers_false token f :
  answers token f = false -> f = [] \/ take 2 f <> token.
Proof.
  unfold answers. intros H. apply bool_decide_eq_false in H.
  destruct f as [|x f']; [left; reflexivity | right].
  intros Heq. apply H. split; [discriminate | exact Heq].
Qed.

Lemma reader_runs_same inbox :
  forall s,
    same_device s (reader_runs inbox s) /\
    length (events (reader_runs inbox s)) = length (events s).
Proof.
  induction inbox as [|a rest IH]; intros s; cbn.
  - auto using same_device_refl.
  - destruct (IH (_read_loop a s)) as [Hd Hlen].
    split; [eauto using same_device_trans, read_loop_same |].
    unfold reader_runs in Hlen. rewrite Hlen. apply read_loop_length.
Qed.

(** While the reader runs, the event of a caller whose slot is the only
    one that refers to it takes each report that answers the token, so it
    ends with the last of them. *)
Lemma reader_runs_spec token event inbox :
  forall s,
    responses s !! token = Some event ->
    (forall k, responses s !! k = Some event -> k = token) ->
    (event < length (events s))%nat ->
    events (reader_runs inbox s) !! event
      = match last_response token inbox with
        | Some f => Some (mkEvent true (Some f))
        | None => events s !! event
        end.
Proof.
  induction inbox as [|a rest IH]; intros s Hreg Huniq Hlt.
  - reflexivity.
  - cbn [last_response].
    change (reader_runs (a :: rest) s) with (reader_runs rest (_read_loop a s)).
    destruct (same_device_fields _ _ (read_loop_same a s)) as (Hresp & _).
    rewrite IH.
    + destruct (last_response token rest) as [g|]; [reflexivity |].
      destruct (answers token a) eqn:Ha.
      * apply answers_true in Ha as [Hne Htok]. subst token.
        apply read_loop_hit; assumption.
      * apply read_loop_miss.
        apply answers_false in Ha as [Hnil | Hne]; [left; exact Hnil | right].
        intros Hk. apply Hne. apply Huniq. exact Hk.
    + rewrite Hresp. exact Hreg.
    + intros k. rewrite Hresp. apply Huniq.
    + rewrite read_loop_length. exact Hlt.
Qed.

Lemma request_buffer_state token sub route args s r s' :
  request_buffer token sub route args s = (r, s') -> s' = s.
Proof.
  unfold request_buffer, bind, or_raise, ret, raise, get.
  intros H.
  destruct args as [|[b|n] [|? ?]]; cbn in H;
  repeat match type of H with
         | context [to_bytes ?v ?n ?o] => destruct (to_bytes v n o); cbn in H
         end; try congruence.
Qed.

(** A transaction whose request could be encoded runs to
    [transaction_end], and its result is decided by the [_ret] attribute
    of its event there. *)
Lemma transaction_run sub route args s buffer :
  request_buffer (next_token s) sub route args (after_draw s)
    = (Return buffer, after_draw s) ->
  transaction sub route args s
    = (outcome (events (transaction_end buffer s) !! length (events s) ≫= _ret),
       transaction_end buffer s).
Proof.
  intros Hbuf. unfold transaction.
  erewrite bind_Return by apply draw_eq.
  erewrite bind_Return
    by (unfold or_raise; rewrite gen_token_to_bytes; reflexivity).
  change [gen_token (hd 0 (entropy s)) / 256; gen_token (hd 0 (entropy s)) mod 256]
    with (next_token s).
  erewrite bind_Return by exact Hbuf.
  erewrite bind_Return by reflexivity.
  erewrite bind_Return by reflexivity.
  erewrite bind_Return by reflexivity.
  erewrite bind_Return by apply next_incoming_eq.
  erewrite bind_Return by reflexivity.
  erewrite bind_Return by reflexivity.
  erewrite bind_Return by reflexivity.
  change (length (events (after_draw s))) with (length (events s)).
  match goal with
  | |- context [reader_runs ?i ?st] =>
      change (with_responses (fun t => delete (next_token s) t) (reader_runs i st))
        with (transaction_end buffer s)
  end.
  destruct (events (transaction_end buffer s) !! length (events s) ≫= _ret)
    as [f|]; [| reflexivity].
  unfold outcome, index, or_raise, bind.
  destruct (f !! 2%nat) as [flags|]; [| reflexivity]. cbn.
  destruct (negb (flags =? SUCCESS)); [reflexivity |].
  destruct (f !! 3%nat) as [n|]; reflexivity.
Qed.

(** The request that could not be encoded is not sent. *)
Lemma transaction_not_encoded sub route args s e :
  request_buffer (next_token s) sub route args (after_draw s)
    = (Raise e, after_draw s) ->
  transaction sub route args s = (Raise e, after_draw s).
Proof.
  intros Hbuf. unfold transaction.
  erewrite bind_Return by apply draw_eq.
  erewrite bind_Return
    by (unfold or_raise; rewrite gen_token_to_bytes; reflexivity).
  erewrite bind_Raise by exact Hbuf. reflexivity.
Qed.

(** What a transaction leaves behind, whatever the device did. *)
Lemma transaction_end_fields buffer s :
  let s' := transaction_end buffer s in
  responses s' = delete (next_token s) (responses s) /\
  written s' = written s ++ [buffer] /\
  version_cache s' = version_cache s /\
  info_cache s' = info_cache s /\
  platform s' = platform s /\
  entropy s' = tl (entropy s) /\
  incoming s' = tl (incoming s) /\
  length (events s') = S (length (events s)).
Proof.
  unfold transaction_end. cbn zeta.
  destruct (reader_runs_same (next_inbox s) (waiting_state buffer s)) as [Hd2 Hlen2].
  set (s2 := reader_runs (next_inbox s) (waiting_state buffer s)) in *.
  destruct (same_device_fields _ _ Hd2)
    as (Hresp2 & Hwr2 & Hvc2 & Hic2 & Hpl2 & Hen2 & Hin2).
  cbn [responses written version_cache info_cache platform entropy incoming
       events with_responses].
  rewrite Hresp2, Hwr2, Hvc2, Hic2, Hpl2, Hen2, Hin2, Hlen2.
  cbn. rewrite delete_insert_eq, length_app. cbn.
  repeat (split; [reflexivity |]). lia.
Qed.

Lemma transaction_end_wf buffer s : wf s -> wf (transaction_end buffer s).
Proof.
  intros Hwf k e.
  destruct (transaction_end_fields buffer s) as (Hresp & _ & _ & _ & _ & _ & _ & Hlen).
  rewrite Hresp, Hlen. intros Hk.
  apply lookup_delete_Some in Hk as [_ Hk]. apply Hwf in Hk. lia.
Qed.

(** In a well-formed state the event of a transaction carries the last
    report that answered its token while it waited, and no [_ret] when
    there was none. *)
Lemma transaction_end_event buffer s :
  wf s ->
  events (transaction_end buffer s) !! length (events s) ≫= _ret
    = last_response (next_token s) (next_inbox s).
Proof.
  intros Hwf. unfold transaction_end.
  set (event := length (events s)).
  set (s1 := waiting_state buffer s).
  assert (Hresp1 : responses s1 = <[next_token s := event]> (responses s))
    by reflexivity.
  assert (Hev1 : events s1 = events s ++ [mkEvent false None]) by reflexivity.
  change (events (with_responses _ (reader_runs (next_inbox s) s1)))
    with (events (reader_runs (next_inbox s) s1)).
  rewrite (reader_runs_spec (next_token s) event).
  - destruct (last_response (next_token s) (next_inbox s)); [reflexivity |].
    subst event. rewrite Hev1, list_lookup_middle by reflexivity. reflexivity.
  - rewrite Hresp1. apply lookup_insert_eq.
  - intros k. rewrite Hresp1. intros Hk.
    destruct (decide (k = next_token s)) as [|Hne]; [assumption |].
    rewrite lookup_insert_ne in Hk by congruence.
    apply Hwf in Hk. subst event. lia.
  - rewrite Hev1, length_app. cbn. subst event. lia.
Qed.

(** Together: the result of a transaction in a well-formed state. *)
Lemma transaction_spec sub route args s buffer :
  wf s ->
  request_buffer (next_token s) sub route args (after_draw s)
    = (Return buffer, after_draw s) ->
  transaction sub route args s
    = (outcome (last_response (next_token s) (next_inbox s)),
       transaction_end buffer s).
Proof.
  intros Hwf Hbuf. rewrite (transaction_run _ _ _ _ _ Hbuf).
  rewrite transaction_end_event by assumption. reflexivity.
Qed.

(** ** Request encoding *)

Lemma to_bytes_byte (v : Z) : 0 <= v < 256 -> to_bytes v 1 little = Some [v].
Proof.
  intros Hv. unfold to_bytes.
  replace ((0 <=? v) && (v <? 256 ^ Z.of_nat 1)) with true.
  - cbn [le_digits]. rewrite Z.mod_small by lia. reflexivity.
  - symmetry. apply andb_true_iff. split; [apply Z.leb_le | apply Z.ltb_lt]; lia.
Qed.

Lemma to_bytes_byte_overflow (v : Z) : 256 <= v -> to_bytes v 1 little = None.
Proof.
  intros Hv. unfold to_bytes.
  replace (v <? 256 ^ Z.of_nat 1) with false.
  - rewrite andb_false_r. reflexivity.
  - symmetry. apply Z.ltb_ge. lia.
Qed.

Lemma to_bytes_u16 (n : Z) :
  (0 <=? n) && (n <? 65536) = true ->
  to_bytes n 2 little = Some [n mod 256; n / 256].
Proof.
  intros Hn. unfold to_bytes.
  change (256 ^ Z.of_nat 2) with 65536. rewrite Hn.
  apply andb_true_iff in Hn as [H0 H1].
  apply Z.leb_le in H0. apply Z.ltb_lt in H1.
  cbn [le_digits]. do 3 f_equal.
  apply Z.mod_small. split; [apply Z.div_pos; lia | apply Z.div_lt_upper_bound; lia].
Qed.

Lemma encoded_length (a : arg) (d : list Z) :
  encoded a = Some d ->
  match a with
  | ABytes b => d = b
  | AInt n => len d = 2 /\ to_bytes n 2 little = Some d
  end.
Proof.
  destruct a as [b|n]; cbn.
  - congruence.
  - destruct ((0 <=? n) && (n <? 65536)) eqn:Hn; [| discriminate].
    intros [= <-]. split; [reflexivity | apply to_bytes_u16; exact Hn].
Qed.

(** The buffer of a request with one argument of at most 253 bytes. *)
Lemma request_buffer_encoded token sub route a d s :
  0 <= sub < 256 -> 0 <= route < 256 ->
  encoded a = Some d -> len d <= 253 ->
  request_buffer token sub route [a] s
    = (Return (report_id s ++ request_frame token sub route d), s).
Proof.
  intros Hsub Hroute Henc Hlen. apply encoded_length in Henc.
  assert (Hd : 0 <= len d) by (unfold len; lia).
  unfold request_buffer.
  assert (Harg :
    match a with
    | ABytes b => ret (2 + len b, b)
    | AInt n => bind (or_raise OverflowError (to_bytes n 2 little))
                     (fun d' => ret (2 + 2, d'))
    end s = (Return (2 + len d, d), s)).
  { destruct a as [b|n].
    - subst d. reflexivity.
    - destruct Henc as [Hl Hb]. rewrite Hl.
      erewrite bind_Return by (unfold or_raise; rewrite Hb; reflexivity).
      reflexivity. }
  erewrite bind_Return by exact Harg. cbv beta iota zeta.
  erewrite bind_Return
    by (unfold or_raise; rewrite to_bytes_byte by lia; reflexivity).
  erewrite bind_Return
    by (unfold or_raise; rewrite to_bytes_byte by lia; reflexivity).
  erewrite bind_Return
    by (unfold or_raise; rewrite to_bytes_byte by lia; reflexivity).
  erewrite bind_Return by reflexivity.
  unfold ret, report_id, request_frame. do 2 f_equal.
  replace (64 - 3 - (2 + len d)) with (59 - len d) by lia.
  assert (Hpad : match d with [] => zeros (59 - len d) | _ :: _ => d ++ zeros (59 - len d) end
                 = d ++ zeros (59 - len d)) by (destruct d; reflexivity).
  rewrite Hpad.
  destruct (contains "windows" (lower (platform s))); reflexivity.
Qed.

(** From 254 argument bytes on, the argument length does not fit its byte. *)
Lemma request_buffer_overflow token sub route b s :
  254 <= len b ->
  request_buffer token sub route [ABytes b] s = (Raise OverflowError, s).
Proof.
  intros Hlen. unfold request_buffer.
  erewrite bind_Return by reflexivity. cbv beta iota zeta.
  erewrite bind_Raise
    by (unfold or_raise; rewrite to_bytes_byte_overflow by lia; reflexivity).
  reflexivity.
Qed.

(** Encoding either yields a buffer or raises OverflowError. *)
Lemma request_buffer_cases token sub route args s :
  (exists buffer, request_buffer token sub route args s = (Return buffer, s)) \/
  request_buffer token sub route args s = (Raise OverflowError, s).
Proof.
  unfold request_buffer, bind, or_raise, ret, raise, get.
  destruct args as [|[b|n] [|? ?]]; cbn;
  repeat match goal with
         | |- context [to_bytes ?v ?n ?o] => destruct (to_bytes v n o); cbn
         end; eauto.
Qed.

Lemma request_frame_length token sub route d :
  length token = 2%nat -> len d <= 59 ->
  length (request_frame token sub route d) = 64%nat.
Proof.
  intros Htok Hlen. unfold request_frame, zeros, len in *.
  rewrite !length_app, repeat_length, Htok. cbn. lia.
Qed.

(** C5: a transaction with one argument that fits (an integer as its two
    little-endian bytes, a byte sequence verbatim) writes one 64-byte
    frame made of the big-endian token, the argument length 2 + len(d),
    the subsystem, the route, the argument bytes and zero padding, with
    one zero report-ID byte in front of it on Windows and nothing in front
    of it elsewhere. *)
Theorem request_frame_layout s sub route a d :
  0 <= sub < 256 -> 0 <= route < 256 ->
  encoded a = Some d -> len d <= 59 ->
  let t := gen_token (hd 0 (entropy s)) in
  let frame := [t / 256; t mod 256] ++ [2 + len d; sub; route] ++ d ++ zeros (59 - len d) in
  length frame = 64%nat /\
  written (transaction sub route [a] s).2
    = written s
      ++ [(if contains "windows" (lower (platform s)) then [0] else []) ++ frame].
Proof.
  intros Hsub Hroute Henc Hlen t frame.
  split; [apply (request_frame_length (next_token s)); [reflexivity | assumption] |].
  change (if contains "windows" (lower (platform s)) then [0] else [])
    with (report_id s).
  assert (Hbuf : encodes sub route [a] s (report_id s ++ frame)).
  { unfold encodes. erewrite request_buffer_encoded by (eassumption || lia).
    reflexivity. }
  rewrite (transaction_run _ _ _ _ _ Hbuf). cbn [snd].
  apply transaction_end_fields.
Qed.

Lemma request_frame_layout_witness :
  written (transaction 0x01 0x06 [AInt 258] windows_device).2
    = [[0; 255; 253; 4; 1; 6; 2; 1] ++ zeros 57].
Proof.
  apply (request_frame_layout windows_device 0x01 0x06 (AInt 258) [2; 1]);
    [lia | lia | reflexivity | unfold len; cbn; lia].
Defined.

(** ** Slot cleanup *)

(** C2: whenever [transaction] gets as far as registering its slot (that
    is, unless encoding the request raised OverflowError), on every way out
    (payload, [None] for a device error or a timeout, and also IndexError
    on a truncated report) the table afterwards is the table before without
    the token, so it holds no entry for that token. *)
Theorem slot_removed s sub route args r s' :
  transaction sub route args s = (r, s') ->
  r <> Raise OverflowError ->
  responses s' = delete (next_token s) (responses s) /\
  responses s' !! next_token s = None.
Proof.
  intros Hrun Hr.
  assert (Hresp : responses s' = delete (next_token s) (responses s)).
  { destruct (request_buffer_cases (next_token s) sub route args (after_draw s))
      as [[buffer Hbuf] | Hbuf].
    - rewrite (transaction_run _ _ _ _ _ Hbuf) in Hrun.
      injection Hrun as _ <-. apply transaction_end_fields.
    - rewrite (transaction_not_encoded _ _ _ _ _ Hbuf) in Hrun.
      injection Hrun as <- _. congruence. }
  split; [exact Hresp |]. rewrite Hresp. apply lookup_delete_eq.
Qed.

Lemma slot_removed_witness :
  responses (transaction 0 0 [] rejecting_device).2 !! [1; 0] = None.
Proof.
  apply (slot_removed rejecting_device 0 0 [] (Return None)
           (transaction 0 0 [] rejecting_device).2).
  - vm_compute. reflexivity.
  - discriminate.
Defined.

Lemma opened_wf plat draws reports : wf (opened plat draws reports).
Proof. intros k e Hk. cbn in Hk. rewrite lookup_empty in Hk. discriminate. Qed.

(** ** Oversized requests *)

(** C3, as stated, fails: a 60-byte argument is one byte too long for a
    report, yet [transaction] raises nothing and writes a 65-byte frame. *)
Lemma oversized_request_is_sent :
  59 < len sixty_bytes /\
  (transaction 0x04 0x03 [ABytes sixty_bytes] silent_device).1 = Return None /\
  written (transaction 0x04 0x03 [ABytes sixty_bytes] silent_device).2
    = [[1; 0; 62; 4; 3] ++ sixty_bytes] /\
  length ([1; 0; 62; 4; 3] ++ sixty_bytes) = 65%nat.
Proof. vm_compute. repeat split; reflexivity. Qed.

(** C3, amended: there is no size check.  With 60 to 253 argument bytes
    the transaction proceeds like any other (its result is decided by the
    last response handled for its token) and writes the unpadded frame of
    5 + len(b) bytes (plus the report-ID byte on Windows), which is longer
    than a report; from 254 argument bytes on, the argument-length
    byte overflows, the call raises OverflowError, and nothing is
    registered or written. *)
Theorem oversized_request s sub route b :
  wf s -> 0 <= sub < 256 -> 0 <= route < 256 -> 59 < len b ->
  (len b <= 253 ->
   let frame := next_token s ++ [2 + len b; sub; route] ++ b in
   len frame = 5 + len b /\
   (transaction sub route [ABytes b] s).1
     = outcome (last_response (next_token s) (next_inbox s)) /\
   written (transaction sub route [ABytes b] s).2
     = written s ++ [report_id s ++ frame]) /\
  (253 < len b ->
   (transaction sub route [ABytes b] s).1 = Raise OverflowError /\
   written (transaction sub route [ABytes b] s).2 = written s /\
   responses (transaction sub route [ABytes b] s).2 = responses s).
Proof.
  intros Hwf Hsub Hroute Hbig. split.
  - intros Hfits frame.
    assert (Hbuf : encodes sub route [ABytes b] s (report_id s ++ frame)).
    { unfold encodes.
      erewrite request_buffer_encoded by (reflexivity || lia).
      unfold request_frame, zeros.
      replace (Z.to_nat (59 - len b)) with 0%nat by lia.
      cbn [repeat]. rewrite app_nil_r. reflexivity. }
    split.
    { unfold frame, len. rewrite !length_app. cbn. lia. }
    rewrite (transaction_spec _ _ _ _ _ Hwf Hbuf). cbn [fst snd].
    split; [reflexivity | apply transaction_end_fields].
  - intros Hover.
    rewrite (transaction_not_encoded sub route [ABytes b] s OverflowError)
      by (apply request_buffer_overflow; lia).
    repeat split.
Qed.

Lemma oversized_request_witness :
  (transaction 0x04 0x03 [ABytes sixty_bytes] silent_device).1
    = outcome (last_response (next_token silent_device) (next_inbox silent_device)).
Proof.
  apply (oversized_request silent_device 0x04 0x03 sixty_bytes).
  - apply opened_wf.
  - lia.
  - lia.
  - vm_compute. reflexivity.
  - vm_compute. discriminate.
Defined.

(** ** Outcomes of a transaction *)

(** C1, as stated, fails: a transaction that times out and one that the
    device rejects return the same value, [None]. *)
Lemma timeout_and_device_error_coincide :
  last_response (next_token silent_device) (next_inbox silent_device) = None /\
  last_response (next_token rejecting_device) (next_inbox rejecting_device)
    = Some (report [1; 0] 0 []) /\
  report [1; 0] 0 [] !! 2%nat = Some 0 /\
  (transaction 0 0 [] silent_device).1 = Return None /\
  (transaction 0 0 [] rejecting_device).1 = Return None.
Proof. vm_compute. repeat split; reflexivity. Qed.

(** C1, amended: what decides a transaction is the response that its
    event holds when the caller runs again, that is, the last report for
    its token that the reader handled while it waited.  [transaction]
    returns [None] both when there is no such response (timeout) and when
    its flags byte is not SUCCESS, so these two failures are not told
    apart; with SUCCESS flags it returns the payload, which differs from
    [None] even when it is empty. *)
Theorem transaction_outcomes s sub route args buffer :
  wf s -> encodes sub route args s buffer ->
  let response := last_response (next_token s) (next_inbox s) in
  (response = None -> (transaction sub route args s).1 = Return None) /\
  (forall f flags,
      response = Some f -> f !! 2%nat = Some flags -> flags <> SUCCESS ->
      (transaction sub route args s).1 = Return None) /\
  (forall f n,
      response = Some f -> f !! 2%nat = Some SUCCESS -> f !! 3%nat = Some n ->
      (transaction sub route args s).1 = Return (Some (slice f 4 (4 + n))) /\
      Some (slice f 4 (4 + n)) <> None) /\
  Return (Some []) <> Return (@None (list Z)).
Proof.
  intros Hwf Hbuf response.
  rewrite (transaction_spec _ _ _ _ _ Hwf Hbuf). cbn [fst]. fold response.
  split; [| split; [| split]].
  - intros ->. reflexivity.
  - intros f flags -> Hflags Hne. cbn. rewrite Hflags.
    apply Z.eqb_neq in Hne. rewrite Hne. reflexivity.
  - intros f n -> Hflags Hn. cbn. rewrite Hflags, Hn.
    split; [reflexivity | discriminate].
  - discriminate.
Qed.

Lemma transaction_outcomes_witness :
  (transaction 0 0 [] silent_device).1 = Return None /\
  (transaction 0 0 [] rejecting_device).1 = Return None.
Proof.
  split.
  - apply (transaction_outcomes silent_device 0 0 []
             (request_frame [1; 0] 0 0 []));
      [apply opened_wf | vm_compute; reflexivity | reflexivity].
  - apply (proj1 (proj2 (transaction_outcomes rejecting_device 0 0 []
                           (request_frame [1; 0] 0 0 [])
                           (opened_wf _ _ _) eq_refl))
             (report [1; 0] 0 []) 0);
      [reflexivity | reflexivity | discriminate].
Defined.

(** ** Declared payload length *)

Lemma slice_payload (f : list Z) (n : Z) :
  slice f 4 (4 + n) = take (Z.to_nat n) (drop 4 f).
Proof. unfold slice. replace (4 + n - 4) with n by lia. reflexivity. Qed.

(** C4, as stated, fails: a 64-byte response that declares 200 payload
    bytes is not refused; the 60 bytes after the header are returned. *)
Lemma overlong_payload_is_accepted :
  length overlong_report = 64%nat /\
  overlong_report !! 3%nat = Some 200 /\
  (transaction 0 0 [] overlong_device).1 = Return (Some (repeat 85 60%nat)).
Proof. vm_compute. repeat split; reflexivity. Qed.

(** C4, amended: decoding a response never fails on account of its
    declared payload length; for the response that the event holds when
    the caller runs again (the last report handled for the token), the
    payload returned is the slice starting at offset 4 cut off at the end
    of the report, min(declared, len(report) - 4) bytes long, so a decoded
    response may declare more bytes than the report has left. *)
Theorem payload_clamped s sub route args buffer f n :
  wf s -> encodes sub route args s buffer ->
  last_response (next_token s) (next_inbox s) = Some f ->
  f !! 2%nat = Some SUCCESS -> f !! 3%nat = Some n -> 0 <= n ->
  (transaction sub route args s).1 = Return (Some (take (Z.to_nat n) (drop 4 f))) /\
  len (take (Z.to_nat n) (drop 4 f)) = Z.min n (len f - 4).
Proof.
  intros Hwf Hbuf Hresp Hflags Hn Hpos.
  rewrite (transaction_spec _ _ _ _ _ Hwf Hbuf). cbn [fst].
  rewrite Hresp. cbn. rewrite Hflags, Hn. cbn. rewrite slice_payload.
  split; [reflexivity |].
  apply lookup_lt_Some in Hn.
  unfold len. rewrite length_take, length_drop. lia.
Qed.

Lemma payload_clamped_witness :
  (transaction 0 0 [] overlong_device).1
    = Return (Some (take (Z.to_nat 200) (drop 4 overlong_report))) /\
  len (take (Z.to_nat 200) (drop 4 overlong_report)) = Z.min 200 (len overlong_report - 4).
Proof.
  apply (payload_clamped overlong_device 0 0 [] (request_frame [1; 0] 0 0 [])).
  - apply opened_wf.
  - vm_compute. reflexivity.
  - vm_compute. reflexivity.
  - reflexivity.
  - reflexivity.
  - lia.
Defined.

(** ** Broadcasts *)

Lemma last_response_In token inbox f :
  last_response token inbox = Some f -> In f inbox /\ answers token f = true.
Proof.
  induction inbox as [|a rest IH]; cbn; [discriminate |].
  destruct (last_response token rest) as [g|].
  - intros [= ->]. destruct (IH eq_refl) as [Hin Ha]. auto.
  - destruct (answers token a) eqn:Ha; [| discriminate].
    intros [= ->]. auto.
Qed.

(** [listen] in a well-formed state: it returns the report with the
    broadcast token that the reader handled last, whole, and never returns
    without one. *)
Lemma listen_spec s :
  wf s ->
  exists s',
    listen s
      = (match last_response [0xFF; 0xFF] (next_inbox s) with
         | Some f => Return f
         | None => Blocked
         end, s') /\
    responses s' = <[[0xFF; 0xFF] := length (events s)]> (responses s) /\
    incoming s' = tl (incoming s) /\
    written s' = written s /\
    wf s'.
Proof.
  intros Hwf. unfold listen. cbv zeta.
  erewrite bind_Return by reflexivity.
  erewrite bind_Return by reflexivity.
  erewrite bind_Return by apply next_incoming_eq.
  set (event := length (events s)).
  match goal with
  | |- context [wait event ?i] => change i with (next_inbox s)
  end.
  match goal with
  | |- context [bind (wait _ _) ?k ?st] => set (s1 := st)
  end.
  assert (Hresp1 : responses s1 = <[[0xFF; 0xFF] := event]> (responses s))
    by reflexivity.
  assert (Hev1 : events s1 = events s ++ [mkEvent false None]) by reflexivity.
  assert (Hev2 : events (reader_runs (next_inbox s) s1) !! event
                 = match last_response [0xFF; 0xFF] (next_inbox s) with
                   | Some f => Some (mkEvent true (Some f))
                   | None => events s1 !! event
                   end).
  { apply reader_runs_spec.
    - rewrite Hresp1. apply lookup_insert_eq.
    - intros k. rewrite Hresp1. intros Hk.
      destruct (decide (k = [0xFF; 0xFF])) as [|Hne]; [assumption |].
      rewrite lookup_insert_ne in Hk by congruence.
      apply Hwf in Hk. subst event. lia.
    - rewrite Hev1, length_app. cbn. subst event. lia. }
  destruct (reader_runs_same (next_inbox s) s1) as [Hd2 Hlen2].
  erewrite bind_Return by reflexivity.
  set (s2 := reader_runs (next_inbox s) s1) in *.
  destruct (same_device_fields _ _ Hd2)
    as (Hresp2 & Hwr2 & _ & _ & _ & _ & Hin2).
  assert (Hwf2 : wf s2).
  { intros k e. rewrite Hresp2, Hresp1, Hlen2, Hev1, length_app. cbn.
    intros Hk. destruct (decide (k = [0xFF; 0xFF])) as [-> | Hne].
    - rewrite lookup_insert_eq in Hk. injection Hk as <-. subst event. lia.
    - rewrite lookup_insert_ne in Hk by congruence. apply Hwf in Hk. lia. }
  exists s2. split.
  - unfold event_is_set. rewrite Hev2.
    destruct (last_response [0xFF; 0xFF] (next_inbox s)) as [f|].
    + cbn [is_set]. erewrite bind_Return by reflexivity. cbn beta.
      rewrite Hev2. reflexivity.
    + subst event. rewrite Hev1, list_lookup_middle by reflexivity. reflexivity.
  - rewrite Hresp2, Hin2, Hwr2. repeat (split; [reflexivity |]). exact Hwf2.
Qed.

(** C9, as stated, fails: [listen] hands back the whole 64-byte report,
    token and header included, not the payload [[7]] that it carries. *)
Lemma listen_returns_whole_report :
  (listen broadcasting_device).1 = Return (report [255; 255] 1 [7]) /\
  slice (report [255; 255] 1 [7]) 4 (4 + 1) = [7] /\
  (listen broadcasting_device).1 <> Return [7].
Proof.
  assert (H : (listen broadcasting_device).1 = Return (report [255; 255] 1 [7]))
    by (vm_compute; reflexivity).
  split; [exact H |]. split; [reflexivity |].
  rewrite H. vm_compute. discriminate.
Qed.

(** C9, amended: [listen] registers a slot under the broadcast token
    0xFFFF and waits without a deadline; for as long as no report with
    that token arrives it does not return, and otherwise it returns, whole
    (token, flags and length bytes included), the report with that token
    that the reader handled last before the caller ran again, leaving the
    slot registered. *)
Theorem listen_returns_report s :
  wf s ->
  let inbox := next_inbox s in
  (last_response [0xFF; 0xFF] inbox = None -> (listen s).1 = Blocked) /\
  (forall f, last_response [0xFF; 0xFF] inbox = Some f ->
             (listen s).1 = Return f /\ take 2 f = [0xFF; 0xFF]) /\
  responses (listen s).2 !! [0xFF; 0xFF] = Some (length (events s)).
Proof.
  intros Hwf inbox.
  destruct (listen_spec s Hwf) as (s' & Hrun & Hresp & _).
  rewrite Hrun. cbn [fst snd]. fold inbox.
  split; [| split].
  - intros ->. reflexivity.
  - intros f Hf. rewrite Hf. split; [reflexivity |].
    apply last_response_In in Hf as [_ Ha]. apply answers_true in Ha. apply Ha.
  - rewrite Hresp. apply lookup_insert_eq.
Qed.

Lemma listen_returns_report_witness :
  (listen broadcasting_device).1 = Return (report [255; 255] 1 [7]).
Proof.
  apply (proj1 (proj2 (listen_returns_report broadcasting_device (opened_wf _ _ _)))).
  reflexivity.
Defined.

(** When two reports reach a slot before its caller runs again, the later
    one is what the caller finds: a rejection followed by a success yields
    the payload, and of two broadcasts the second is returned. *)
Example later_report_wins :
  (transaction 0 0 [] answering_twice_device).1 = Return (Some [6]) /\
  (listen broadcasting_twice_device).1 = Return (report [255; 255] 1 [8]).
Proof. vm_compute. split; reflexivity. Qed.

(** ** Chunked fetch *)

(** A transaction that returns has written exactly one frame. *)
Lemma transaction_returns_written sub route args s v s1 :
  transaction sub route args s = (Return v, s1) ->
  exists buffer, written s1 = written s ++ [buffer].
Proof.
  intros Hrun.
  destruct (request_buffer_cases (next_token s) sub route args (after_draw s))
    as [[buffer Hbuf] | Hbuf].
  - rewrite (transaction_run _ _ _ _ _ Hbuf) in Hrun.
    injection Hrun as _ <-. exists buffer. apply transaction_end_fields.
  - rewrite (transaction_not_encoded _ _ _ _ _ Hbuf) in Hrun. discriminate.
Qed.

Lemma fetched_progress datalen k c c' :
  fetched datalen k c c' ->
  c.1.2 <= c'.1.2 /\
  length (written c'.2) = (k + length (written c.2))%nat.
Proof.
  induction 1 as [c | k data offset s chunk s1 c' Hlt Hrun Hrest IH]; cbn in *.
  - split; [lia | reflexivity].
  - destruct IH as [Hoff Hlen].
    apply transaction_returns_written in Hrun as [buffer Hwr].
    rewrite Hwr, length_app in Hlen. cbn in Hlen.
    split; [unfold len in Hoff; lia | lia].
Qed.

(** The loop stops with TypeError at the first chunk transaction that
    returns [None]. *)
Lemma fetch_chunks_fails datalen k c c' :
  fetched datalen k c c' ->
  forall fuel,
    c'.1.2 < datalen ->
    (transaction 0x01 0x06 [AInt c'.1.2] c'.2).1 = Return None ->
    (k < fuel)%nat ->
    fetch_chunks fuel datalen c.1.1 c.1.2 c.2
      = (Raise TypeError, (transaction 0x01 0x06 [AInt c'.1.2] c'.2).2).
Proof.
  induction 1 as [[[data offset] s] | k data offset s chunk s1 c' Hlt Hrun Hrest IH];
    intros fuel Hmore Hfail Hfuel; cbn [fst snd] in *.
  - destruct fuel as [|fuel]; [lia |]. cbn [fetch_chunks].
    apply Z.ltb_lt in Hmore. rewrite Hmore.
    destruct (transaction 1 6 [AInt offset] s) as [r s2] eqn:Hrun.
    cbn in Hfail. subst r.
    erewrite bind_Return by exact Hrun. reflexivity.
  - destruct fuel as [|fuel]; [lia |]. cbn [fetch_chunks].
    apply Z.ltb_lt in Hlt. rewrite Hlt.
    erewrite bind_Return by exact Hrun.
    apply IH; [assumption | assumption | lia].
Qed.

Lemma transaction_wf sub route args s :
  wf s -> wf (transaction sub route args s).2.
Proof.
  intros Hwf.
  destruct (request_buffer_cases (next_token s) sub route args (after_draw s))
    as [[buffer Hbuf] | Hbuf].
  - rewrite (transaction_run _ _ _ _ _ Hbuf). apply transaction_end_wf, Hwf.
  - rewrite (transaction_not_encoded _ _ _ _ _ Hbuf). exact Hwf.
Qed.

Lemma fetched_wf datalen k c c' :
  fetched datalen k c c' -> wf c.2 -> wf c'.2.
Proof.
  induction 1 as [c | k data offset s chunk s1 c' Hlt Hrun Hrest IH]; cbn [snd] in *.
  - trivial.
  - intros Hwf. apply IH.
    pose proof (transaction_wf 0x01 0x06 [AInt offset] s Hwf) as Hwf1.
    rewrite Hrun in Hwf1. exact Hwf1.
Qed.

(** A transaction that times out or is rejected returns [None]. *)
Lemma failed_transaction_returns_None sub route args s buffer :
  wf s -> encodes sub route args s buffer ->
  times_out_or_rejected s ->
  (transaction sub route args s).1 = Return None.
Proof.
  intros Hwf Hbuf Hfail.
  rewrite (transaction_spec _ _ _ _ _ Hwf Hbuf). cbn [fst].
  unfold times_out_or_rejected in Hfail.
  destruct (last_response (next_token s) (next_inbox s)) as [f|]; [| reflexivity].
  destruct Hfail as (flags & Hflags & Hne). cbn. rewrite Hflags.
  apply Z.eqb_neq in Hne. rewrite Hne. reflexivity.
Qed.

Section Fetch.

Variable gunzip_loads : list Z -> exn + pyval.

(** The fetch fails as soon as a chunk transaction returns [None]. *)
Lemma fetch_aborts_on_None fuel s r s0 k data offset s' :
  transaction 0x01 0x05 [] s = (Return r, s0) ->
  let datalen := from_bytes_little (or_empty r) in
  fetched datalen k ([], 0, s0) (data, offset, s') ->
  offset < datalen ->
  (transaction 0x01 0x06 [AInt offset] s').1 = Return None ->
  (k < fuel)%nat ->
  let s'' := (transaction 0x01 0x06 [AInt offset] s').2 in
  _query_device_info gunzip_loads fuel s = (Raise TypeError, s'') /\
  length (written s'') = (length (written s) + 1 + k + 1)%nat.
Proof.
  intros Hlen datalen Hfetched Hmore Hfail Hfuel s''.
  destruct (fetched_progress _ _ _ _ Hfetched) as [Hoff Hwr]. cbn in Hoff, Hwr.
  split.
  - unfold _query_device_info.
    erewrite bind_Return by exact Hlen. fold datalen.
    replace (datalen =? 0) with false by (symmetry; apply Z.eqb_neq; lia).
    erewrite bind_Raise; [reflexivity |].
    apply (fetch_chunks_fails datalen k ([], 0, s0) (data, offset, s'));
      assumption.
  - apply transaction_returns_written in Hlen as [b0 Hw0].
    destruct (transaction 1 6 [AInt offset] s') as [r1 s1] eqn:Hrun.
    cbn in Hfail. subst r1 s''. cbn [snd].
    apply transaction_returns_written in Hrun as [b1 Hw1].
    rewrite Hw1, length_app, Hwr, Hw0, length_app. cbn. lia.
Qed.

(** C7, amended: the length transaction announced [datalen] bytes and
    [k] chunks have been fetched; if the chunk transaction at the next
    offset, still below [datalen], times out or is left with a response
    whose flags are not SUCCESS, the fetch is abandoned at once: whatever
    fuel beyond [k] the loop is given, [_query_device_info] raises the
    TypeError of appending [None] to the data, which is no outcome of its
    own for an incomplete transfer.  It ends in the state that the failed
    transaction left, having written one request for the length and one
    per chunk fetched or attempted, so the failed chunk was asked for once
    and not again. *)
Theorem chunk_failure_aborts_fetch fuel s r s0 k data offset s' :
  wf s ->
  transaction 0x01 0x05 [] s = (Return r, s0) ->
  let datalen := from_bytes_little (or_empty r) in
  fetched datalen k ([], 0, s0) (data, offset, s') ->
  offset < datalen -> offset < 65536 ->
  times_out_or_rejected s' ->
  (k < fuel)%nat ->
  let s'' := (transaction 0x01 0x06 [AInt offset] s').2 in
  _query_device_info gunzip_loads fuel s = (Raise TypeError, s'') /\
  length (written s'') = (length (written s) + 1 + k + 1)%nat.
Proof.
  intros Hwf Hlen datalen Hfetched Hmore Hu16 Hfail Hfuel.
  apply (fetch_aborts_on_None fuel s r s0 k data offset s'); try assumption.
  destruct (fetched_progress _ _ _ _ Hfetched) as [Hoff _]. cbn in Hoff.
  assert (Hwf' : wf s').
  { apply (fetched_wf _ _ _ _ Hfetched). cbn [snd].
    pose proof (transaction_wf 0x01 0x05 [] s Hwf) as H0.
    rewrite Hlen in H0. exact H0. }
  assert (Henc : encoded (AInt offset) = Some [offset mod 256; offset / 256]).
  { cbn. replace ((0 <=? offset) && (offset <? 65536)) with true; [reflexivity |].
    symmetry. apply andb_true_iff. split; [apply Z.leb_le | apply Z.ltb_lt]; lia. }
  eapply failed_transaction_returns_None; [exact Hwf' | | exact Hfail].
  unfold encodes. erewrite request_buffer_encoded; [reflexivity | lia | lia | exact Henc |].
  unfold len. cbn. lia.
Qed.

End Fetch.

Lemma chunk_failure_aborts_fetch_witness :
  _query_device_info no_decoder 5 stalling_device
    = (Raise TypeError, (transaction 0x01 0x06 [AInt 4] stalling_after_chunk).2).
Proof.
  apply (chunk_failure_aborts_fetch no_decoder 5 stalling_device
           (Some [8]) stalling_after_length 1 [31; 139; 8; 0] 4 stalling_after_chunk).
  - apply opened_wf.
  - vm_compute. reflexivity.
  - apply (fetched_S _ 0 [] 0 stalling_after_length [31; 139; 8; 0]
             stalling_after_chunk).
    + reflexivity.
    + vm_compute. reflexivity.
    + apply fetched_O.
  - reflexivity.
  - reflexivity.
  - vm_compute. exact I.
  - lia.
Defined.

(** C7, as stated, fails: when the second chunk transaction times out,
    the fetch ends in a TypeError, and [info] with it; that is the very
    outcome of [info] for a blob that was fetched completely and decodes to
    an array, so no outcome tells an incomplete transfer apart. *)
Lemma incomplete_transfer_is_untyped :
  last_response (next_token stalling_after_chunk) (next_inbox stalling_after_chunk)
    = None /\
  (_query_device_info no_decoder 5 stalling_device).1 = Raise TypeError /\
  (info no_decoder 5 stalling_device).1 = Raise TypeError /\
  (_query_device_info array_decoder 3 serving_device).1 = Return (PList []) /\
  (info array_decoder 3 serving_device).1 = Raise TypeError.
Proof. vm_compute. repeat split; reflexivity. Qed.

(** ** Memoised queries *)

Lemma run_pair {A} (m : M A) s r : (m s).1 = r -> m s = (r, (m s).2).
Proof. destruct (m s) as [r' s']. cbn. intros ->. reflexivity. Qed.

Lemma cached_hit cell store body s v :
  cell s = Some v -> cached cell store body s = (Return v, s).
Proof. intros H. unfold cached, bind, get. rewrite H. reflexivity. Qed.

Lemma cached_miss cell store body s v s' :
  cell s = None -> body s = (Return v, s') ->
  cached cell store body s = (Return v, store (Some v) s').
Proof.
  intros Hc Hb. unfold cached. erewrite bind_Return by reflexivity.
  cbn beta. rewrite Hc. erewrite bind_Return by exact Hb. reflexivity.
Qed.

Lemma cached_raise cell store body s e :
  cell s = None -> (cached cell store body s).1 = Raise e ->
  cached cell store body s = (Raise e, (body s).2).
Proof.
  intros Hc. unfold cached, bind, get, modify, ret. rewrite Hc.
  destruct (body s) as [[v | e' | |] s']; cbn; congruence.
Qed.

Lemma preserves_bind {A B C} (f : State -> C) (m : M A) (k : A -> M B) :
  preserves f m -> (forall a, preserves f (k a)) -> preserves f (bind m k).
Proof.
  intros Hm Hk s. unfold bind. specialize (Hm s).
  destruct (m s) as [[a | e | |] s1]; cbn in *; try assumption.
  rewrite Hk. assumption.
Qed.

Lemma preserves_or_raise {A C} (f : State -> C) e (o : option A) :
  preserves f (or_raise e o).
Proof. intros s. destruct o; reflexivity. Qed.

Lemma transaction_preserves_caches sub route args :
  preserves info_cache (transaction sub route args) /\
  preserves version_cache (transaction sub route args).
Proof.
  split; intros s;
    (destruct (request_buffer_cases (next_token s) sub route args (after_draw s))
      as [[buffer Hbuf] | Hbuf];
     [ rewrite (transaction_run _ _ _ _ _ Hbuf); apply transaction_end_fields
     | rewrite (transaction_not_encoded _ _ _ _ _ Hbuf); reflexivity ]).
Qed.

Lemma fetch_chunks_preserves_info fuel :
  forall datalen data offset,
    preserves info_cache (fetch_chunks fuel datalen data offset).
Proof.
  induction fuel as [|fuel IH]; intros datalen data offset; cbn [fetch_chunks].
  - intros s. reflexivity.
  - destruct (offset <? datalen); [| intros s; reflexivity].
    apply preserves_bind; [apply transaction_preserves_caches |].
    intros [c|]; [apply IH | intros s; reflexivity].
Qed.

Lemma setitem_preserves {C} (f : State -> C) d k v : preserves f (setitem d k v).
Proof. intros s. destruct d; reflexivity. Qed.

Lemma getitem_preserves {C} (f : State -> C) d k : preserves f (getitem d k).
Proof. intros s. destruct d; try reflexivity. apply preserves_or_raise. Qed.

Lemma version_preserves_info : preserves info_cache version.
Proof.
  unfold version, cached.
  apply preserves_bind; [intros s; reflexivity |].
  intros [v|]; [intros s; reflexivity |].
  apply preserves_bind.
  - apply preserves_bind; [apply transaction_preserves_caches |].
    intros r s. reflexivity.
  - intros v. apply preserves_bind; [intros s; reflexivity | intros ? s; reflexivity].
Qed.

(** A version transaction that fails is rendered as version 0.0.0, and
    that is what the cache keeps. *)
Lemma version_of_failure s :
  version_cache s = None ->
  (transaction 0x00 0x00 [] s).1 = Return None ->
  let v0 := PDict [("xap"%string, PStr "0.0.0")] in
  version s = (Return v0, with_version_cache (Some v0) (transaction 0x00 0x00 [] s).2).
Proof.
  intros Hc Hfail v0. unfold version.
  apply cached_miss; [exact Hc |].
  erewrite bind_Return by (apply run_pair; exact Hfail). reflexivity.
Qed.

(** C8, as stated, fails: on a device that never answers, the first
    [version] call returns the successful-looking 0.0.0, stores it, and
    the second call returns it again from the cache without a transaction
    (the state, transport log included, is unchanged). *)
Lemma failed_version_is_cached :
  (transaction 0x00 0x00 [] silent_device).1 = Return None /\
  (version silent_device).1 = Return (PDict [("xap"%string, PStr "0.0.0")]) /\
  version_cache (version silent_device).2
    = Some (PDict [("xap"%string, PStr "0.0.0")]) /\
  version (version silent_device).2
    = (Return (PDict [("xap"%string, PStr "0.0.0")]), (version silent_device).2).
Proof.
  split; [vm_compute; reflexivity |].
  split; [vm_compute; reflexivity |].
  split; [vm_compute; reflexivity |].
  apply cached_hit. vm_compute. reflexivity.
Qed.

Section Memo.

Variable gunzip_loads : list Z -> exn + pyval.

Lemma query_preserves_info fuel :
  preserves info_cache (_query_device_info gunzip_loads fuel).
Proof.
  unfold _query_device_info.
  apply preserves_bind; [apply transaction_preserves_caches |].
  intros r. destruct (_ =? 0); [intros s; reflexivity |].
  apply preserves_bind; [apply fetch_chunks_preserves_info |].
  intros data s. destruct (gunzip_loads _); reflexivity.
Qed.

(** The body of [info] does not touch the cell that memoises it. *)
Lemma info_body_preserves_info fuel :
  preserves info_cache
    (bind (_query_device_info gunzip_loads fuel) (fun data =>
     bind (transaction 0x01 0x08 []) (fun id =>
     bind (setitem data "_id" (of_payload id)) (fun data =>
     bind version (fun v =>
     bind (getitem v "xap") (fun xap =>
     setitem data "xap" xap)))))).
Proof.
  apply preserves_bind; [apply query_preserves_info | intros data].
  apply preserves_bind; [apply transaction_preserves_caches | intros id].
  apply preserves_bind; [apply setitem_preserves | intros data'].
  apply preserves_bind; [apply version_preserves_info | intros v].
  apply preserves_bind; [apply getitem_preserves | intros xap].
  apply setitem_preserves.
Qed.

(** C8, amended: a failed transaction under [version] is not reported;
    [version] returns 0.0.0 and caches it, so every later call returns the
    same value without a new transaction.  [info] likewise turns failed
    length, identifier and version transactions into the record
    [{'_id': None, 'xap': '0.0.0'}] and caches it.  Only a failure that
    raises is reported, and it is not cached. *)
Theorem failed_calls_are_memoized fuel s :
  (version_cache s = None ->
   (transaction 0x00 0x00 [] s).1 = Return None ->
   let v0 := PDict [("xap"%string, PStr "0.0.0")] in
   (version s).1 = Return v0 /\
   version (version s).2 = (Return v0, (version s).2)) /\
  (info_cache s = None -> version_cache s = None ->
   let s1 := (transaction 0x01 0x05 [] s).2 in
   let s2 := (transaction 0x01 0x08 [] s1).2 in
   (transaction 0x01 0x05 [] s).1 = Return None ->
   (transaction 0x01 0x08 [] s1).1 = Return None ->
   (transaction 0x00 0x00 [] s2).1 = Return None ->
   let record := PDict [("_id"%string, PNone); ("xap"%string, PStr "0.0.0")] in
   (info gunzip_loads fuel s).1 = Return record /\
   info gunzip_loads fuel (info gunzip_loads fuel s).2
     = (Return record, (info gunzip_loads fuel s).2)) /\
  (forall e,
      info_cache s = None ->
      (info gunzip_loads fuel s).1 = Raise e ->
      info_cache (info gunzip_loads fuel s).2 = None).
Proof.
  split; [| split].
  - intros Hc Hfail v0.
    rewrite (version_of_failure s Hc Hfail). cbn [fst snd].
    split; [reflexivity |]. apply cached_hit. reflexivity.
  - intros Hic Hvc s1 s2 Hlen Hid Hver record.
    assert (Hvc2 : version_cache s2 = None).
    { subst s2 s1.
      rewrite (proj2 (transaction_preserves_caches 1 8 []) _).
      rewrite (proj2 (transaction_preserves_caches 1 5 []) _). exact Hvc. }
    assert (Hrun : info gunzip_loads fuel s
                   = (Return record,
                      with_info_cache (Some record)
                        (with_version_cache (Some (PDict [("xap"%string, PStr "0.0.0")]))
                           (transaction 0x00 0x00 [] s2).2))).
    { unfold info. apply cached_miss; [exact Hic |].
      unfold _query_device_info.
      erewrite bind_Return.
      2:{ erewrite bind_Return by (apply run_pair; exact Hlen). reflexivity. }
      fold s1.
      erewrite bind_Return by (apply run_pair; exact Hid). fold s2.
      erewrite bind_Return by reflexivity.
      erewrite bind_Return by (apply version_of_failure; assumption).
      erewrite bind_Return by reflexivity.
      reflexivity. }
    rewrite Hrun. cbn [fst snd].
    split; [reflexivity |]. apply cached_hit. reflexivity.
  - intros e Hic Hraise.
    unfold info in *. rewrite (cached_raise _ _ _ _ _ Hic Hraise). cbn [snd].
    rewrite (info_body_preserves_info fuel s). exact Hic.
Qed.

End Memo.

Lemma failed_calls_are_memoized_witness :
  (version silent_device).1 = Return (PDict [("xap"%string, PStr "0.0.0")]) /\
  (info no_decoder 5 silent_device).1
    = Return (PDict [("_id"%string, PNone); ("xap"%string, PStr "0.0.0")]) /\
  (info no_decoder 5 stalling_device).1 = Raise TypeError /\
  info_cache (info no_decoder 5 stalling_device).2 = None.
Proof.
  split; [| split; [| split]].
  - apply (proj1 (failed_calls_are_memoized no_decoder 5 silent_device));
      vm_compute; reflexivity.
  - apply (proj1 (proj2 (failed_calls_are_memoized no_decoder 5 silent_device)));
      vm_compute; reflexivity.
  - vm_compute. reflexivity.
  - apply (proj2 (proj2 (failed_calls_are_memoized no_decoder 5 stalling_device))
             TypeError); vm_compute; reflexivity.
Defined.

(** The end-to-end scenario of a device that answers the version query
    with the payload 03 00 02 01: [version] is 1.2.3, and the second call
    is served from the cache. *)
Example version_end_to_end :
  (version windows_device).1 = Return (PDict [("xap"%string, PStr "1.2.3")]) /\
  version (version windows_device).2
    = (Return (PDict [("xap"%string, PStr "1.2.3")]), (version windows_device).2).
Proof.
  split; [vm_compute; reflexivity |].
  apply cached_hit. vm_compute. reflexivity.
Qed.

(** * Further properties of the transaction engine *)

(** ** Reader loop *)

Lemma read_loop_stray (array_alpha : list Z) (s : State) :
  responses s !! take 2 array_alpha = None -> _read_loop array_alpha s = s.
Proof.
  intros Hnone. unfold _read_loop. rewrite Hnone.
  destruct array_alpha; reflexivity.
Qed.

(** X1: the reader touches nothing but event objects, and of those only the
    one registered under the first two bytes of the report: the table, the
    transport log and the caches stay as they are, no event is created or
    lost, and every event that is not the report's slot is unchanged (all
    of them, when the token is not registered or the read was empty). *)
Theorem reader_isolation (array_alpha : list Z) (s : State) :
  responses (_read_loop array_alpha s) = responses s /\
  written (_read_loop array_alpha s) = written s /\
  version_cache (_read_loop array_alpha s) = version_cache s /\
  info_cache (_read_loop array_alpha s) = info_cache s /\
  length (events (_read_loop array_alpha s)) = length (events s) /\
  (forall i : nat,
      responses s !! take 2 array_alpha <> Some i ->
      events (_read_loop array_alpha s) !! i = events s !! i) /\
  (array_alpha = [] \/ responses s !! take 2 array_alpha = None ->
   _read_loop array_alpha s = s).
Proof.
  destruct (same_device_fields _ _ (read_loop_same array_alpha s))
    as (Hr & Hw & Hv & Hi & _).
  repeat (split; [assumption |]).
  split; [apply read_loop_length |].
  split.
  - intros i Hi'. apply read_loop_miss. right. exact Hi'.
  - intros [-> | Hnone]; [reflexivity | apply read_loop_stray, Hnone].
Qed.

Lemma reader_isolation_witness :
  events (_read_loop (report [255; 255] 1 [7]) silent_device) !! 0%nat
    = events silent_device !! 0%nat.
Proof.
  apply (reader_isolation (report [255; 255] 1 [7]) silent_device).
  vm_compute. discriminate.
Defined.

(** ** Exits of a transaction *)

Lemma outcome_not_overflow response : outcome response <> Raise OverflowError.
Proof.
  unfold outcome. destruct response as [f|]; [| discriminate].
  destruct (f !! 2%nat) as [flags|]; [| discriminate].
  destruct (negb (flags =? SUCCESS)); [discriminate |].
  destruct (f !! 3%nat); discriminate.
Qed.

(** Either the request is encoded and the call runs to
    [transaction_end], or encoding raises and the call stops after the
    random draw. *)
Lemma transaction_cases sub route args s :
  (exists buffer,
      encodes sub route args s buffer /\
      transaction sub route args s
        = (outcome (events (transaction_end buffer s) !! length (events s) ≫= _ret),
           transaction_end buffer s)) \/
  transaction sub route args s = (Raise OverflowError, after_draw s).
Proof.
  destruct (request_buffer_cases (next_token s) sub route args (after_draw s))
    as [[buffer Hbuf] | Hbuf].
  - left. exists buffer. split; [exact Hbuf | apply transaction_run, Hbuf].
  - right. apply transaction_not_encoded, Hbuf.
Qed.

(** X3: a call writes at most one frame, without ever retrying: when encoding
    the request raises OverflowError the table, the event objects and the
    transport log are untouched; in every other case exactly one frame,
    the encoded request, is appended to the log and one event is created. *)
Theorem one_request_per_transaction sub route args s :
  let r := (transaction sub route args s).1 in
  let s' := (transaction sub route args s).2 in
  (r = Raise OverflowError /\
   written s' = written s /\ responses s' = responses s /\ events s' = events s) \/
  (r <> Raise OverflowError /\
   exists buffer,
     encodes sub route args s buffer /\
     written s' = written s ++ [buffer] /\
     length (events s') = S (length (events s))).
Proof.
  cbv zeta.
  destruct (transaction_cases sub route args s) as [(buffer & Hbuf & Hrun) | Hrun];
    rewrite Hrun; cbn [fst snd].
  - right. split; [apply outcome_not_overflow |].
    exists buffer. split; [exact Hbuf |].
    destruct (transaction_end_fields buffer s) as (_ & Hw & _ & _ & _ & _ & _ & Hl).
    split; assumption.
  - left. repeat split.
Qed.

Lemma transaction_slot_gone sub route args s :
  (transaction sub route args s).1 <> Raise OverflowError ->
  responses (transaction sub route args s).2 = delete (next_token s) (responses s).
Proof.
  destruct (transaction_cases sub route args s) as [(buffer & Hbuf & Hrun) | Hrun];
    rewrite Hrun; cbn [fst snd].
  - intros _. apply transaction_end_fields.
  - congruence.
Qed.

(** X2: a response that arrives after its transaction has returned (for
    instance after the timeout) is dropped: the reader finds no slot for
    the token and leaves the state exactly as it was. *)
Theorem late_response_dropped sub route args s (f : list Z) :
  (transaction sub route args s).1 <> Raise OverflowError ->
  take 2 f = next_token s ->
  _read_loop f (transaction sub route args s).2 = (transaction sub route args s).2.
Proof.
  intros Hr Htok. apply read_loop_stray.
  rewrite Htok, (transaction_slot_gone _ _ _ _ Hr). apply lookup_delete_eq.
Qed.

Lemma late_response_dropped_witness :
  _read_loop (report [1; 0] 1 [5]) (transaction 0 0 [] silent_device).2
    = (transaction 0 0 [] silent_device).2.
Proof.
  apply (late_response_dropped 0 0 [] silent_device (report [1; 0] 1 [5])).
  - vm_compute. discriminate.
  - reflexivity.
Defined.

Lemma next_token_not_broadcast s : next_token s <> [0xFF; 0xFF].
Proof.
  unfold next_token. cbv zeta.
  pose proof (gen_token_bounds (hd 0 (entropy s))) as Ht.
  intros [= Hhi Hlo].
  pose proof (Z.div_mod (gen_token (hd 0 (entropy s))) 256 ltac:(lia)). lia.
Qed.

(** X4: a transaction never disturbs the slot of a broadcast listener: the
    entry under the token 0xFFFF is the same before and after the call,
    because no transaction token is 0xFFFF. *)
Theorem broadcast_slot_untouched sub route args s :
  responses (transaction sub route args s).2 !! [0xFF; 0xFF]
    = responses s !! [0xFF; 0xFF].
Proof.
  destruct (transaction_cases sub route args s) as [(buffer & Hbuf & Hrun) | Hrun];
    rewrite Hrun; cbn [snd].
  - destruct (transaction_end_fields buffer s) as (Hresp & _). rewrite Hresp.
    apply lookup_delete_ne, next_token_not_broadcast.
  - reflexivity.
Qed.

(** ** Requests *)

(** X5: all arguments are dropped as soon as there is more than one: such a
    call is the call without arguments.  With subsystem and route bytes,
    that call writes the token, the argument length 2, the two codes and
    59 zero bytes (behind the report-ID byte on Windows). *)
Theorem extra_arguments_ignored sub route (a1 a2 : arg) (rest : list arg) s :
  transaction sub route (a1 :: a2 :: rest) s = transaction sub route [] s /\
  (0 <= sub < 256 -> 0 <= route < 256 ->
   written (transaction sub route [] s).2
     = written s ++ [report_id s ++ next_token s ++ [2; sub; route] ++ zeros 59]).
Proof.
  split.
  - unfold transaction, request_buffer. destruct a1; reflexivity.
  - intros Hsub Hroute.
    assert (Hbuf : encodes sub route [] s
                     (report_id s ++ next_token s ++ [2; sub; route] ++ zeros 59)).
    { unfold encodes, request_buffer.
      erewrite bind_Return by reflexivity. cbv beta iota zeta.
      erewrite bind_Return by reflexivity.
      erewrite bind_Return
        by (unfold or_raise; rewrite to_bytes_byte by lia; reflexivity).
      erewrite bind_Return
        by (unfold or_raise; rewrite to_bytes_byte by lia; reflexivity).
      erewrite bind_Return by reflexivity.
      unfold ret, report_id. cbn [platform after_draw with_entropy].
      destruct (contains "windows" (lower (platform s))); reflexivity. }
    rewrite (transaction_run _ _ _ _ _ Hbuf). cbn [snd].
    apply transaction_end_fields.
Qed.

Lemma extra_arguments_ignored_witness :
  written (transaction 0x00 0x04 [] windows_device).2
    = [[0; 255; 253; 2; 0; 4] ++ zeros 59].
Proof.
  apply (extra_arguments_ignored 0x00 0x04 (AInt 0) (AInt 0) [] windows_device); lia.
Defined.

Lemma to_bytes_Some_range v n order b :
  to_bytes v n order = Some b -> 0 <= v < 256 ^ Z.of_nat n.
Proof.
  unfold to_bytes.
  destruct ((0 <=? v) && (v <? 256 ^ Z.of_nat n)) eqn:H; [| discriminate].
  intros _. apply andb_true_iff in H as [H0 H1].
  apply Z.leb_le in H0. apply Z.ltb_lt in H1. lia.
Qed.

Lemma request_buffer_noargs token sub route args s :
  0 <= sub < 256 -> 0 <= route < 256 ->
  match args with [_] => False | _ => True end ->
  request_buffer token sub route args s
    = (Return (report_id s ++ token ++ [2; sub; route] ++ zeros 59), s).
Proof.
  intros Hsub Hroute Hargs.
  assert (Heq : request_buffer token sub route args s
                = request_buffer token sub route [] s).
  { unfold request_buffer. destruct args as [|[b|n] [|a2 rest]];
      try reflexivity; contradiction. }
  rewrite Heq. unfold request_buffer.
  erewrite bind_Return by reflexivity. cbv beta iota zeta.
  erewrite bind_Return by reflexivity.
  erewrite bind_Return
    by (unfold or_raise; rewrite to_bytes_byte by lia; reflexivity).
  erewrite bind_Return
    by (unfold or_raise; rewrite to_bytes_byte by lia; reflexivity).
  erewrite bind_Return by reflexivity.
  unfold ret, report_id.
  destruct (contains "windows" (lower (platform s))); reflexivity.
Qed.

Lemma request_buffer_encodable token sub route args s :
  (exists buffer, request_buffer token sub route args s = (Return buffer, s))
  <-> encodable sub route args.
Proof.
  split.
  - intros [buffer H]. unfold encodable.
    unfold request_buffer, bind, or_raise, ret, raise, get in H.
    destruct args as [|[b|n] [|a2 rest]]; cbn in H;
      repeat match type of H with
             | context [to_bytes ?v ?n ?o] =>
                 let E := fresh "E" in
                 destruct (to_bytes v n o) eqn:E; cbn in H;
                 [apply to_bytes_Some_range in E | discriminate]
             end;
      change (256 ^ Z.of_nat 1) with 256 in *;
      change (256 ^ Z.of_nat 2) with 65536 in *;
      repeat split; lia.
  - intros (Hsub & Hroute & Hargs).
    destruct args as [|a [|a2 rest]].
    + eexists. apply request_buffer_noargs; trivial.
    + assert (exists d, encoded a = Some d /\ len d <= 253) as (d & Hd & Hlen).
      { destruct a as [b|n]; cbn.
        - exists b. split; [reflexivity | exact Hargs].
        - replace ((0 <=? n) && (n <? 65536)) with true.
          + eexists. split; [reflexivity |]. unfold len. cbn. lia.
          + symmetry. apply andb_true_iff.
            split; [apply Z.leb_le | apply Z.ltb_lt]; lia. }
      eexists. apply (request_buffer_encoded token sub route a d); assumption.
    + eexists. apply request_buffer_noargs; trivial.
Qed.

(** X6: [transaction] raises OverflowError exactly when the request is not
    encodable: a subsystem or route outside 0..255, a single integer
    argument outside 0..65535, or a single byte sequence of more than 253
    bytes.  The error precedes registration: no slot is created and
    nothing is written, only the random token has been drawn. *)
Theorem overflow_iff_not_encodable sub route args s :
  ((transaction sub route args s).1 = Raise OverflowError
   <-> ~ encodable sub route args) /\
  (~ encodable sub route args ->
   transaction sub route args s = (Raise OverflowError, after_draw s) /\
   responses (after_draw s) = responses s /\
   written (after_draw s) = written s /\
   events (after_draw s) = events s).
Proof.
  pose proof (request_buffer_encodable (next_token s) sub route args (after_draw s))
    as Hiff.
  assert (Hraise : ~ encodable sub route args ->
                   transaction sub route args s = (Raise OverflowError, after_draw s)).
  { intros Hnot.
    destruct (transaction_cases sub route args s) as [(buffer & Hbuf & _) | Hrun];
      [| exact Hrun].
    exfalso. apply Hnot, Hiff. exists buffer. exact Hbuf. }
  split.
  - split.
    + intros Hr Henc. apply Hiff in Henc as [buffer Hbuf].
      rewrite (transaction_run _ _ _ _ _ Hbuf) in Hr. cbn in Hr.
      exact (outcome_not_overflow _ Hr).
    + intros Hnot. rewrite (Hraise Hnot). reflexivity.
  - intros Hnot. split; [exact (Hraise Hnot) |]. repeat split.
Qed.

Lemma overflow_iff_not_encodable_witness :
  transaction 0x01 0x06 [AInt 65536] silent_device
    = (Raise OverflowError, after_draw silent_device).
Proof.
  apply (overflow_iff_not_encodable 0x01 0x06 [AInt 65536] silent_device).
  unfold encodable. lia.
Defined.

(** ** Responses *)

(** X7: when the response that the event holds as the caller runs again
    (the last report handled for the token) is shorter than its header,
    [transaction] raises IndexError (no flags byte, or SUCCESS flags
    without a length byte); the slot has been removed all the same. *)
Theorem truncated_report_raises sub route args s buffer (f : list Z) :
  wf s -> encodes sub route args s buffer ->
  last_response (next_token s) (next_inbox s) = Some f ->
  (length f <= 2)%nat \/ (length f = 3%nat /\ f !! 2%nat = Some SUCCESS) ->
  (transaction sub route args s).1 = Raise IndexError /\
  responses (transaction sub route args s).2 !! next_token s = None.
Proof.
  intros Hwf Hbuf Hresp Hshort.
  rewrite (transaction_spec _ _ _ _ _ Hwf Hbuf). cbn [fst snd].
  split.
  - rewrite Hresp. cbn. destruct Hshort as [Hlen | [Hlen Hflags]].
    + rewrite (lookup_ge_None_2 f 2) by lia. reflexivity.
    + rewrite Hflags. cbn. rewrite (lookup_ge_None_2 f 3) by lia. reflexivity.
  - destruct (transaction_end_fields buffer s) as (Hr & _). rewrite Hr.
    apply lookup_delete_eq.
Qed.

Lemma truncated_report_raises_witness :
  (transaction 0 0 [] truncating_device).1 = Raise IndexError /\
  responses (transaction 0 0 [] truncating_device).2 !! next_token truncating_device
    = None.
Proof.
  apply (truncated_report_raises 0 0 [] truncating_device
           (request_frame [1; 0] 0 0 []) [1; 0; 1]).
  - apply opened_wf.
  - vm_compute. reflexivity.
  - vm_compute. reflexivity.
  - right. split; reflexivity.
Defined.

(** X8: round trip of a response: when the response that the event
    holds as the caller runs again (the last report handled for the token)
    is a 64-byte report made of the token, the SUCCESS flags, the payload
    length and the payload (at most 60 bytes, zero padded), it is decoded
    to exactly that payload. *)
Theorem payload_round_trip sub route args s buffer (payload : list Z) :
  wf s -> encodes sub route args s buffer ->
  len payload <= 60 ->
  last_response (next_token s) (next_inbox s)
    = Some (report (next_token s) SUCCESS payload) ->
  length (report (next_token s) SUCCESS payload) = 64%nat /\
  (transaction sub route args s).1 = Return (Some payload).
Proof.
  intros Hwf Hbuf Hlen Hresp. split.
  - unfold report, zeros, len in *. rewrite !length_app, repeat_length. cbn. lia.
  - rewrite (transaction_spec _ _ _ _ _ Hwf Hbuf). cbn [fst].
    rewrite Hresp. unfold outcome, report, next_token. cbn.
    unfold slice. replace (Z.to_nat (4 + len payload - 4)) with (length payload)
      by (unfold len; lia).
    cbn. change (Z.to_nat 4) with 4%nat. cbn [drop]. rewrite drop_0, take_app_length.
    reflexivity.
Qed.

Lemma payload_round_trip_witness :
  (transaction 0 0 [] windows_device).1 = Return (Some [3; 0; 2; 1]).
Proof.
  apply (payload_round_trip 0 0 [] windows_device
           ([0] ++ request_frame [255; 253] 0 0 []) [3; 0; 2; 1]).
  - apply opened_wf.
  - vm_compute. reflexivity.
  - vm_compute. discriminate.
  - vm_compute. reflexivity.
Defined.

(** ** Unlock *)

Lemma outcome_of_full_report response :
  (forall f, response = Some f -> (4 <= length f)%nat) ->
  exists v, outcome response = Return v.
Proof.
  intros Hfull. unfold outcome. destruct response as [f|]; [| eauto].
  specialize (Hfull f eq_refl).
  destruct (lookup_lt_is_Some_2 f 2 ltac:(lia)) as [flags ->].
  destruct (negb (flags =? SUCCESS)); [eauto |].
  destruct (lookup_lt_is_Some_2 f 3 ltac:(lia)) as [n ->]. eauto.
Qed.

(** X9: [unlock] is fire and forget: as long as the reports read during its
    wait have at least the four header bytes, it returns normally whatever
    the device answers (success, rejection, or nothing at all), after
    writing its one request. *)
Theorem unlock_ignores_answer s :
  wf s ->
  (forall f, In f (next_inbox s) -> (4 <= length f)%nat) ->
  (unlock s).1 = Return tt /\
  written (unlock s).2
    = written s ++ [report_id s ++ next_token s ++ [2; 0; 4] ++ zeros 59].
Proof.
  intros Hwf Hfull.
  assert (Hbuf : encodes 0x00 0x04 [] s
                   (report_id s ++ next_token s ++ [2; 0; 4] ++ zeros 59)).
  { unfold encodes. rewrite request_buffer_noargs by (trivial || lia). reflexivity. }
  destruct (outcome_of_full_report (last_response (next_token s) (next_inbox s)))
    as [v Hv].
  { intros f Hf. apply Hfull. eapply last_response_In, Hf. }
  unfold unlock.
  erewrite bind_Return
    by (rewrite (transaction_spec _ _ _ _ _ Hwf Hbuf), Hv; reflexivity).
  cbn [fst snd ret]. split; [reflexivity | apply transaction_end_fields].
Qed.

Lemma unlock_ignores_answer_witness : (unlock rejecting_device).1 = Return tt.
Proof.
  apply (unlock_ignores_answer rejecting_device (opened_wf _ _ _)).
  intros f [<- | []]. vm_compute. lia.
Defined.

(** ** Fetching the info blob *)

Lemma fetched_offset datalen k c c' :
  fetched datalen k c c' ->
  c'.1.2 - c.1.2 = len c'.1.1 - len c.1.1.
Proof.
  induction 1 as [c | k data offset s chunk s1 c' Hlt Hrun Hrest IH]; cbn in *.
  - lia.
  - unfold len in *. rewrite length_app in IH. lia.
Qed.

Lemma fetch_chunks_done datalen k c c' :
  fetched datalen k c c' ->
  forall fuel,
    datalen <= c'.1.2 -> (k < fuel)%nat ->
    fetch_chunks fuel datalen c.1.1 c.1.2 c.2 = (Return c'.1.1, c'.2).
Proof.
  induction 1 as [[[data offset] s] | k data offset s chunk s1 c' Hlt Hrun Hrest IH];
    intros fuel Hdone Hfuel; cbn [fst snd] in *.
  - destruct fuel as [|fuel]; [lia |]. cbn [fetch_chunks].
    replace (offset <? datalen) with false by (symmetry; apply Z.ltb_ge; lia).
    reflexivity.
  - destruct fuel as [|fuel]; [lia |]. cbn [fetch_chunks].
    apply Z.ltb_lt in Hlt. rewrite Hlt.
    erewrite bind_Return by exact Hrun.
    apply IH; [assumption | lia].
Qed.

Section Blob.

Variable gunzip_loads : list Z -> exn + pyval.

(** X10: when the length query yields zero (an all-zero or empty payload, or
    no payload at all because the query failed), [_query_device_info]
    returns the empty record at once: whatever the fuel, the length request
    is the only frame written and no chunk is asked for. *)
Theorem empty_blob_skips_chunks fuel s r s0 :
  transaction 0x01 0x05 [] s = (Return r, s0) ->
  r = None \/ from_bytes_little (or_empty r) = 0 ->
  _query_device_info gunzip_loads fuel s = (Return (PDict []), s0) /\
  exists buffer, written s0 = written s ++ [buffer].
Proof.
  intros Hlen Hzero.
  assert (Hz : from_bytes_little (or_empty r) = 0)
    by (destruct Hzero as [-> | Hz]; [reflexivity | exact Hz]).
  split.
  - unfold _query_device_info. erewrite bind_Return by exact Hlen.
    rewrite Hz. reflexivity.
  - eapply transaction_returns_written, Hlen.
Qed.

(** X11: when [k] chunk transactions bring the offset up to the announced
    length, [_query_device_info] stops asking: the offset equals the
    number of bytes gathered, the chunks are joined in the order fetched,
    what exceeds the announced length is cut off, and the decoder's verdict
    on those bytes is the result (its exception is raised as it is).  One
    length request and [k] chunk requests were written. *)
Theorem fetch_reassembles fuel s r s0 k data offset s' :
  transaction 0x01 0x05 [] s = (Return r, s0) ->
  let datalen := from_bytes_little (or_empty r) in
  datalen <> 0 ->
  fetched datalen k ([], 0, s0) (data, offset, s') ->
  datalen <= offset ->
  (k < fuel)%nat ->
  offset = len data /\
  _query_device_info gunzip_loads fuel s
    = (match gunzip_loads (take (Z.to_nat datalen) data) with
       | inl e => Raise e
       | inr v => Return v
       end, s') /\
  length (written s') = (length (written s) + 1 + k)%nat.
Proof.
  intros Hlen datalen Hnz Hfetched Hdone Hfuel.
  pose proof (fetched_offset _ _ _ _ Hfetched) as Hoff. cbn in Hoff.
  destruct (fetched_progress _ _ _ _ Hfetched) as [_ Hwr]. cbn in Hwr.
  split; [unfold len in *; cbn in Hoff; lia |]. split.
  - unfold _query_device_info. erewrite bind_Return by exact Hlen.
    fold datalen.
    replace (datalen =? 0) with false by (symmetry; apply Z.eqb_neq; exact Hnz).
    erewrite bind_Return
      by (apply (fetch_chunks_done datalen k ([], 0, s0) (data, offset, s'));
          assumption).
    unfold slice. rewrite Z.sub_0_r. change (Z.to_nat 0) with 0%nat.
    rewrite drop_0. cbn [fst snd].
    destruct (gunzip_loads (take (Z.to_nat datalen) data)); reflexivity.
  - apply transaction_returns_written in Hlen as [b0 Hw0].
    rewrite Hwr, Hw0, length_app. cbn. lia.
Qed.

End Blob.

Lemma empty_blob_skips_chunks_witness :
  _query_device_info no_decoder 0 silent_device
    = (Return (PDict []), (transaction 0x01 0x05 [] silent_device).2).
Proof.
  apply (empty_blob_skips_chunks no_decoder 0 silent_device None).
  - vm_compute. reflexivity.
  - left. reflexivity.
Defined.

Lemma fetch_reassembles_witness :
  _query_device_info size_decoder 3 serving_device
    = (Return (PDict [("size"%string, PInt 6)]), serving_after_second).
Proof.
  apply (fetch_reassembles size_decoder 3 serving_device (Some [6])
           serving_after_length 2 [1; 2; 3; 4; 5; 6; 7; 8] 8 serving_after_second).
  - vm_compute. reflexivity.
  - vm_compute. discriminate.
  - apply (fetched_S _ 1 [] 0 serving_after_length [1; 2; 3; 4] serving_after_first).
    + reflexivity.
    + vm_compute. reflexivity.
    + apply (fetched_S _ 0 [1; 2; 3; 4] 4 serving_after_first [5; 6; 7; 8]
               serving_after_second).
      * reflexivity.
      * vm_compute. reflexivity.
      * apply fetched_O.
  - vm_compute. discriminate.
  - lia.
Defined.

(** ** Memoisation *)

Lemma cached_fills cell store body s v s' :
  (forall c s0, cell (store c s0) = c) ->
  cached cell store body s = (Return v, s') ->
  cell s' = Some v.
Proof.
  intros Hstore. unfold cached, bind, get, modify, ret.
  destruct (cell s) as [v0|] eqn:Hc.
  - intros [= <- <-]. exact Hc.
  - destruct (body s) as [[v1 | e | |] s1]; intros [= <- <-]. apply Hstore.
Qed.

(** X12: once [version] or [info] has returned, every further call returns
    the same value and changes nothing: no transaction is started, nothing
    is written, and for [info] neither the fuel nor the decoder matters
    any more. *)
Theorem memoized_idempotent :
  (forall s v s', version s = (Return v, s') -> version s' = (Return v, s')) /\
  (forall loads loads' fuel fuel' s v s',
      info loads fuel s = (Return v, s') ->
      info loads' fuel' s' = (Return v, s')).
Proof.
  split.
  - intros s v s' Hrun. apply cached_hit.
    eapply cached_fills; [| exact Hrun]. reflexivity.
  - intros loads loads' fuel fuel' s v s' Hrun. apply cached_hit.
    eapply cached_fills; [| exact Hrun]. reflexivity.
Qed.

Lemma memoized_idempotent_witness :
  version (version windows_device).2
    = (Return (PDict [("xap"%string, PStr "1.2.3")]), (version windows_device).2).
Proof.
  apply (proj1 memoized_idempotent windows_device).
  vm_compute. reflexivity.
Defined.

(** X13: the version payload is read little-endian: the four bytes b0 b1 b2 b3
    are rendered as "b3.b2.n" with n = b0 + 256 * b1. *)
Theorem version_of_payload s (b0 b1 b2 b3 : Z) :
  version_cache s = None ->
  (transaction 0x00 0x00 [] s).1 = Return (Some [b0; b1; b2; b3]) ->
  0 <= b0 < 256 -> 0 <= b1 < 256 -> 0 <= b2 < 256 -> 0 <= b3 < 256 ->
  (version s).1
    = Return (PDict [("xap"%string, PStr (dotted b3 b2 (b0 + 256 * b1)))]).
Proof.
  intros Hc Hrun H0 H1 H2 H3. unfold version.
  erewrite cached_miss; [reflexivity | exact Hc |].
  erewrite bind_Return by (apply run_pair; exact Hrun).
  unfold ret. do 5 f_equal. cbn [or_empty from_bytes_little].
  set (v := b0 + 256 * (b1 + 256 * (b2 + 256 * (b3 + 256 * 0)))).
  assert (Hv : 0 <= v < 2 ^ 32) by (subst v; lia).
  unfold _u32toBCD, dotted.
  rewrite shiftr24_bits by exact Hv. rewrite shiftr16_land_bits, land16_bits.
  assert (Hhi : bits 31 24 v = b3).
  { unfold bits. change (2 ^ 24) with 16777216. change (2 ^ (31 - 24 + 1)) with 256.
    subst v. Z.to_euclidean_division_equations. lia. }
  assert (Hmid : bits 23 16 v = b2).
  { unfold bits. change (2 ^ 16) with 65536. change (2 ^ (23 - 16 + 1)) with 256.
    subst v. Z.to_euclidean_division_equations. lia. }
  assert (Hlo : bits 15 0 v = b0 + 256 * b1).
  { unfold bits. change (2 ^ 0) with 1. change (2 ^ (15 - 0 + 1)) with 65536.
    subst v. Z.to_euclidean_division_equations. lia. }
  rewrite Hhi, Hmid, Hlo. reflexivity.
Qed.

Lemma version_of_payload_witness :
  (version windows_device).1
    = Return (PDict [("xap"%string, PStr (dotted 1 2 (3 + 256 * 0)))]).
Proof.
  apply (version_of_payload windows_device 3 0 2 1);
    [reflexivity | vm_compute; reflexivity | lia | lia | lia | lia].
Defined.

(** ** The info record *)

Lemma assoc_get_set_eq k v d : assoc_get k (assoc_set k v d) = Some v.
Proof.
  induction d as [|[k' v'] rest IH]; cbn.
  - rewrite String.eqb_refl. reflexivity.
  - destruct (String.eqb k k') eqn:E; cbn.
    + rewrite String.eqb_refl. reflexivity.
    + rewrite E. exact IH.
Qed.

Lemma assoc_get_set_ne k k' v d :
  k <> k' -> assoc_get k' (assoc_set k v d) = assoc_get k' d.
Proof.
  intros Hne. assert (Hkk : String.eqb k' k = false)
    by (apply String.eqb_neq; congruence).
  induction d as [|[k0 v0] rest IH]; cbn.
  - rewrite Hkk. reflexivity.
  - destruct (String.eqb k k0) eqn:E; cbn.
    + apply String.eqb_eq in E. subst k0. rewrite Hkk. reflexivity.
    + destruct (String.eqb k' k0); [reflexivity | exact IH].
Qed.

Section InfoRecord.

Variable gunzip_loads : list Z -> exn + pyval.

(** X14: when the blob decodes to an object, [info] returns it with two keys
    set by the session: "_id" holds the answer to the identifier query
    ([None] when that query failed) and "xap" the version string; keys of
    those names in the blob are overwritten, every other key keeps its
    value, and the record is cached. *)
Theorem info_record_fields fuel s d s1 id s2 vd s3 xap :
  info_cache s = None ->
  _query_device_info gunzip_loads fuel s = (Return (PDict d), s1) ->
  transaction 0x01 0x08 [] s1 = (Return id, s2) ->
  version s2 = (Return (PDict vd), s3) ->
  assoc_get "xap" vd = Some xap ->
  exists record,
    info gunzip_loads fuel s
      = (Return (PDict record), with_info_cache (Some (PDict record)) s3) /\
    assoc_get "_id" record = Some (of_payload id) /\
    assoc_get "xap" record = Some xap /\
    (forall k, k <> "_id"%string -> k <> "xap"%string ->
               assoc_get k record = assoc_get k d).
Proof.
  intros Hc Hq Hid Hv Hxap.
  exists (assoc_set "xap" xap (assoc_set "_id" (of_payload id) d)).
  split.
  - unfold info. apply cached_miss; [exact Hc |].
    erewrite bind_Return by exact Hq.
    erewrite bind_Return by exact Hid.
    erewrite bind_Return by reflexivity.
    erewrite bind_Return by exact Hv.
    erewrite bind_Return by (cbn; rewrite Hxap; reflexivity).
    reflexivity.
  - split; [| split].
    + rewrite assoc_get_set_ne by discriminate. apply assoc_get_set_eq.
    + apply assoc_get_set_eq.
    + intros k Hk1 Hk2.
      rewrite assoc_get_set_ne by congruence.
      apply assoc_get_set_ne. congruence.
Qed.

(** X15: when the blob decodes to anything but an object, [info] raises
    TypeError on storing "_id", after the identifier query has been made;
    the version is not queried and nothing is cached. *)
Theorem info_rejects_non_object fuel s d s1 :
  info_cache s = None ->
  _query_device_info gunzip_loads fuel s = (Return d, s1) ->
  (forall l, d <> PDict l) ->
  (exists id, (transaction 0x01 0x08 [] s1).1 = Return id) ->
  let s2 := (transaction 0x01 0x08 [] s1).2 in
  info gunzip_loads fuel s = (Raise TypeError, s2) /\
  info_cache s2 = None /\ version_cache s2 = version_cache s1.
Proof.
  intros Hc Hq Hnd [id Hid] s2.
  assert (Hbody :
    bind (_query_device_info gunzip_loads fuel) (fun data =>
    bind (transaction 0x01 0x08 []) (fun id =>
    bind (setitem data "_id" (of_payload id)) (fun data =>
    bind version (fun v =>
    bind (getitem v "xap") (fun xap =>
    setitem data "xap" xap))))) s = (Raise TypeError, s2)).
  { erewrite bind_Return by exact Hq.
    erewrite bind_Return by (apply run_pair; exact Hid).
    fold s2. erewrite bind_Raise; [reflexivity |].
    destruct d; try reflexivity. exfalso. eapply Hnd. reflexivity. }
  split.
  - unfold info, cached. erewrite bind_Return by reflexivity. cbn beta.
    rewrite Hc. erewrite bind_Raise by exact Hbody. reflexivity.
  - subst s2.
    rewrite (proj1 (transaction_preserves_caches 1 8 []) s1).
    rewrite (proj2 (transaction_preserves_caches 1 8 []) s1).
    pose proof (query_preserves_info gunzip_loads fuel s) as Hp.
    rewrite Hq in Hp. cbn in Hp. rewrite Hp. split; [exact Hc | reflexivity].
Qed.

End InfoRecord.

Lemma info_record_fields_witness :
  exists record,
    info size_decoder 3 serving_device
      = (Return (PDict record),
         with_info_cache (Some (PDict record))
           (version (transaction 0x01 0x08 [] serving_after_second).2).2) /\
    assoc_get "_id" record = Some PNone /\
    assoc_get "xap" record = Some (PStr "0.0.0") /\
    (forall k, k <> "_id"%string -> k <> "xap"%string ->
               assoc_get k record = assoc_get k [("size"%string, PInt 6)]).
Proof.
  apply (info_record_fields size_decoder 3 serving_device
           [("size"%string, PInt 6)] serving_after_second None
           (transaction 0x01 0x08 [] serving_after_second).2
           [("xap"%string, PStr "0.0.0")]
           (version (transaction 0x01 0x08 [] serving_after_second).2).2).
  - reflexivity.
  - vm_compute. reflexivity.
  - vm_compute. reflexivity.
  - vm_compute. reflexivity.
  - reflexivity.
Defined.

Lemma info_rejects_non_object_witness :
  info array_decoder 3 serving_device
    = (Raise TypeError, (transaction 0x01 0x08 [] serving_after_second).2).
Proof.
  apply (info_rejects_non_object array_decoder 3 serving_device (PList [])
           serving_after_second).
  - reflexivity.
  - vm_compute. reflexivity.
  - discriminate.
  - exists None. vm_compute. reflexivity.
Defined.

(** ** Device discovery *)

Lemma prefix_refl (s : string) : String.prefix s s = true.
Proof.
  induction s as [|c s IH]; cbn; [reflexivity |].
  destruct (Ascii.ascii_dec c c); [exact IH | congruence].
Qed.

Lemma lower_empty (q : string) : lower q = EmptyString -> q = EmptyString.
Proof. destruct q; [reflexivity | discriminate]. Qed.

Lemma list_filter_search (q q' : string) (l : list hid_entry) :
  lower q = lower q' ->
  List.filter (_is_filtered_device q) l = List.filter (_is_filtered_device q') l.
Proof.
  intros Hq. unfold _is_filtered_device. rewrite Hq. reflexivity.
Qed.

(** X16: [XAPClient.list] only ever returns enumerated entries with the XAP
    usage page 0xFF51 and usage 0x58, in any search; the search ignores
    letter case; and an XAP entry is found by its own "vid:pid" string,
    however that is capitalised. *)
Theorem list_search (enumerated : list hid_entry) :
  (forall search x,
      In x (XAPClient_list search enumerated) ->
      In x enumerated /\ usage_page x = 0xFF51 /\ usage x = 0x0058) /\
  (forall q q',
      lower q = lower q' ->
      XAPClient_list (Some q) enumerated = XAPClient_list (Some q') enumerated) /\
  (forall q x,
      In x enumerated -> _is_xap_usage x = true ->
      lower q = lower (device_name x) ->
      In x (XAPClient_list (Some q) enumerated)).
Proof.
  assert (Husage : forall x, In x (List.filter _is_xap_usage enumerated) ->
            In x enumerated /\ usage_page x = 0xFF51 /\ usage x = 0x0058).
  { intros x Hx. apply filter_In in Hx as [Hin Hu].
    unfold _is_xap_usage in Hu. apply andb_true_iff in Hu as [Hp Hu].
    apply Z.eqb_eq in Hp. apply Z.eqb_eq in Hu. auto. }
  split; [| split].
  - intros search x Hx. unfold XAPClient_list in Hx.
    destruct search as [[|c q]|]; try (apply Husage; exact Hx).
    apply filter_In in Hx as [Hx _]. apply Husage, Hx.
  - intros q q' Hq. unfold XAPClient_list.
    destruct q as [|c q], q' as [|c' q'].
    + reflexivity.
    + symmetry in Hq. apply lower_empty in Hq. discriminate.
    + apply lower_empty in Hq. discriminate.
    + apply list_filter_search, Hq.
  - intros q x Hin Hu Hq. unfold XAPClient_list.
    assert (Hx : In x (List.filter _is_xap_usage enumerated))
      by (apply filter_In; auto).
    destruct q as [|c q]; [exact Hx |].
    apply filter_In. split; [exact Hx |].
    unfold _is_filtered_device. rewrite Hq. apply prefix_refl.
Qed.

Lemma list_search_witness :
  In xap_interface
     (XAPClient_list (Some "FEED:0001"%string) [keyboard_interface; xap_interface]).
Proof.
  apply (proj2 (proj2 (list_search [keyboard_interface; xap_interface]))).
  - right. left. reflexivity.
  - reflexivity.
  - reflexivity.
Defined.

(** ** No slot is left behind *)

Lemma keeps_bind {A B} (P : State -> Prop) (m : M A) (k : A -> M B) :
  keeps P m -> (forall a, keeps P (k a)) -> keeps P (bind m k).
Proof.
  intros Hm Hk s Hs. unfold bind. specialize (Hm s Hs).
  destruct (m s) as [[a | e | |] s1]; cbn in *; try assumption.
  apply Hk, Hm.
Qed.

Lemma keeps_pure {A} (P : State -> Prop) (m : M A) :
  (forall s, (m s).2 = s) -> keeps P m.
Proof. intros Hm s Hs. rewrite Hm. exact Hs. Qed.

Lemma session_ok_caches s c :
  session_ok s ->
  session_ok (with_version_cache c s) /\ session_ok (with_info_cache c s).
Proof. intros Hs. split; exact Hs. Qed.

Lemma transaction_keeps_session sub route args :
  keeps session_ok (transaction sub route args).
Proof.
  intros s [Hwf Htidy]. split; [apply transaction_wf, Hwf |].
  destruct (transaction_cases sub route args s) as [(buffer & _ & Hrun) | Hrun];
    rewrite Hrun; cbn [snd]; [| exact Htidy].
  destruct (transaction_end_fields buffer s) as (Hresp & _). rewrite Hresp.
  intros k [e Hk]. apply lookup_delete_Some in Hk as [_ Hk]. apply Htidy. eauto.
Qed.

Lemma listen_keeps_session : keeps session_ok listen.
Proof.
  intros s [Hwf Htidy].
  destruct (listen_spec s Hwf) as (s' & Hrun & Hresp & _ & _ & Hwf').
  rewrite Hrun. cbn [snd]. split; [exact Hwf' |].
  rewrite Hresp. intros k [e Hk].
  destruct (decide (k = [0xFF; 0xFF])) as [| Hne]; [assumption |].
  rewrite lookup_insert_ne in Hk by congruence. apply Htidy. eauto.
Qed.

Lemma fetch_chunks_keeps_session fuel :
  forall datalen data offset,
    keeps session_ok (fetch_chunks fuel datalen data offset).
Proof.
  induction fuel as [|fuel IH]; intros datalen data offset; cbn [fetch_chunks].
  - apply keeps_pure. reflexivity.
  - destruct (offset <? datalen); [| apply keeps_pure; reflexivity].
    apply keeps_bind; [apply transaction_keeps_session |].
    intros [c|]; [apply IH | apply keeps_pure; reflexivity].
Qed.

Lemma cached_keeps_session cell store body :
  (forall c s, session_ok s -> session_ok (store c s)) ->
  keeps session_ok body ->
  keeps session_ok (cached cell store body).
Proof.
  intros Hstore Hbody. unfold cached.
  apply keeps_bind; [apply keeps_pure; reflexivity |].
  intros [v|]; [apply keeps_pure; reflexivity |].
  apply keeps_bind; [exact Hbody |].
  intros v. apply keeps_bind; [| intros; apply keeps_pure; reflexivity].
  intros s Hs. apply Hstore, Hs.
Qed.

Lemma version_keeps_session : keeps session_ok version.
Proof.
  unfold version. apply cached_keeps_session.
  - intros c s Hs. apply session_ok_caches, Hs.
  - apply keeps_bind; [apply transaction_keeps_session |].
    intros r. apply keeps_pure. reflexivity.
Qed.

Section Session.

Variable gunzip_loads : list Z -> exn + pyval.

Lemma query_keeps_session fuel :
  keeps session_ok (_query_device_info gunzip_loads fuel).
Proof.
  unfold _query_device_info.
  apply keeps_bind; [apply transaction_keeps_session |].
  intros r. destruct (_ =? 0); [apply keeps_pure; reflexivity |].
  apply keeps_bind; [apply fetch_chunks_keeps_session |].
  intros data. apply keeps_pure. intros s.
  destruct (gunzip_loads _); reflexivity.
Qed.

(** X17: a freshly opened session has an empty table, and no call of the
    session, however it ends (payload, [None], exception, a wait without
    end, or the chunk loop cut short), leaves a slot behind other than the
    one of the broadcast listener; every slot that is registered refers to
    an event object that exists. *)
Theorem no_slot_left_behind :
  (forall plat draws reports, session_ok (opened plat draws reports)) /\
  (forall sub route args, keeps session_ok (transaction sub route args)) /\
  keeps session_ok listen /\
  keeps session_ok unlock /\
  keeps session_ok version /\
  (forall fuel, keeps session_ok (_query_device_info gunzip_loads fuel)) /\
  (forall fuel, keeps session_ok (info gunzip_loads fuel)).
Proof.
  split.
  { intros plat draws reports. split; [apply opened_wf |].
    intros k [e Hk]. cbn in Hk. rewrite lookup_empty in Hk. discriminate. }
  split; [apply transaction_keeps_session |].
  split; [apply listen_keeps_session |].
  split.
  { unfold unlock. apply keeps_bind; [apply transaction_keeps_session |].
    intros r. apply keeps_pure. reflexivity. }
  split; [apply version_keeps_session |].
  split; [apply query_keeps_session |].
  intros fuel. unfold info. apply cached_keeps_session.
  - intros c s Hs. apply session_ok_caches, Hs.
  - apply keeps_bind; [apply query_keeps_session | intros data].
    apply keeps_bind; [apply transaction_keeps_session | intros id].
    apply keeps_bind; [apply keeps_pure; intros s; destruct data; reflexivity |].
    intros data'.
    apply keeps_bind; [apply version_keeps_session | intros v].
    apply keeps_bind.
    + apply keeps_pure. intros s. destruct v; try reflexivity.
      cbn. destruct (assoc_get _ _); reflexivity.
    + intros xap. apply keeps_pure. intros s. destruct data'; reflexivity.
Qed.

End Session.

Lemma no_slot_left_behind_witness :
  session_ok (info size_decoder 3 serving_device).2.
Proof.
  apply (no_slot_left_behind size_decoder).
  apply (no_slot_left_behind size_decoder).
Defined.
